(** * nanobot voice front-end: wake-word gate, pre-roll ring, recorder, handler

    A shallow embedding of [nanobot/voice/wakeword.py] and
    [nanobot/voice/service.py].

    Conventions of the embedding:
    - a Python [str] is a [string] whose characters are code points below 256
      (the Latin-1 block), which [str.strip] and [str.lower] map into itself;
    - a Python [float] (scores, thresholds, timestamps, durations) is a
      rational [Q]; [int(x)] is truncation toward zero;
    - a Python [dict] is the list of its items in iteration order;
    - what the code obtains from its collaborators (the acoustic model, the
      clock, numpy, the frame queue, the audio client, the agent) is an
      explicit argument of the embedded function. *)

From Stdlib Require Import List Bool Arith ZArith QArith Qround Lia Lqa.
From Stdlib Require Import Ascii String.
Import ListNotations.

(** ** Python strings *)

Module PyStr.

Definition code (c : ascii) : N := N_of_ascii c.

(** [str.isspace] on one code point below 256: TAB..CR, FS..US, space,
    NEL (0x85) and NBSP (0xA0). *)
Definition is_space (c : ascii) : bool :=
  let n := code c in
  ((9 <=? n) && (n <=? 13) || (28 <=? n) && (n <=? 32)
   || (n =? 133) || (n =? 160))%N.

(** [str.lower] on one code point below 256: A..Z and the accented capitals
    0xC0..0xDE (the multiplication sign 0xD7 excepted) move up by 32. *)
Definition lower_char (c : ascii) : ascii :=
  let n := code c in
  if ((65 <=? n) && (n <=? 90)
      || (192 <=? n) && (n <=? 222) && negb (n =? 215))%N
  then ascii_of_N (n + 32) else c.

Definition underscore : ascii := "_"%char.
Definition space : ascii := " "%char.

(** One character of [s.replace("_", " ")]. *)
Definition replace_char (c : ascii) : ascii :=
  if Ascii.eqb c underscore then space else c.

Fixpoint lstrip (l : list ascii) : list ascii :=
  match l with
  | c :: l' => if is_space c then lstrip l' else l
  | [] => []
  end.

Definition rstrip (l : list ascii) : list ascii := rev (lstrip (rev l)).

Definition strip (l : list ascii) : list ascii := rstrip (lstrip l).

Definition lower (l : list ascii) : list ascii := map lower_char l.

Definition replace_underscores (l : list ascii) : list ascii :=
  map replace_char l.

End PyStr.

(** ** wakeword.py *)

Module WakeWord.
Import PyStr.

(** [_normalize_keyword] on the characters of the label. *)
Definition normalize_chars (l : list ascii) : list ascii :=
  replace_underscores (lower (strip l)).

(** [def _normalize_keyword(name): return name.strip().lower().replace("_", " ")] *)
Definition _normalize_keyword (name : string) : string :=
  string_of_list_ascii (normalize_chars (list_ascii_of_string name)).

(** The label begins with white space / with an underscore. *)
Definition hd_space (l : list ascii) : bool :=
  match l with c :: _ => is_space c | [] => false end.


(** No white space at either end: the shape of every [strip] result. *)
Definition trimmed (l : list ascii) : bool :=
  negb (hd_space l) && negb (hd_space (rev l)).



Definition blank (w : list ascii) : bool := forallb is_space w.

(** The same notions on labels. *)
Definition chars (s : string) : list ascii := list_ascii_of_string s.

Definition is_blank (w : string) : bool := blank (chars w).

Definition is_trimmed (s : string) : bool := trimmed (chars s).



(** *** Dictionaries, as item lists in iteration order *)

Fixpoint dict_get {V : Type} (d : list (string * V)) (k : string) : option V :=
  match d with
  | [] => None
  | (k', v) :: d' => if String.eqb k' k then Some v else dict_get d' k
  end.

(** [d[k] = v]: an existing key keeps its place and takes the new value, a new
    key goes last. *)
Fixpoint dict_set {V : Type} (d : list (string * V)) (k : string) (v : V)
  : list (string * V) :=
  match d with
  | [] => [(k, v)]
  | (k', v') :: d' =>
      if String.eqb k' k then (k', v) :: d' else (k', v') :: dict_set d' k v
  end.

Definition dict_keys {V : Type} (d : list (string * V)) : list string :=
  map fst d.

(** *** The detector *)

(** What [model.predict] hands back: a dict from keyword to score, or a value
    of another type. *)
Inductive Prediction : Type :=
| NotADict
| Dict (items : list (string * Q)).

Record WakeWordConfig : Type := {
  wake_word : string;
  model_paths : option (list string);
  threshold : Q;
  cooldown_s : Q
}.

Record WakeWordDetector : Type := {
  config : WakeWordConfig;
  last_trigger : Q
}.

(** [WakeWordDetector.__init__]: [self.last_trigger = 0.0]. *)
Definition new_detector (cfg : WakeWordConfig) : WakeWordDetector :=
  {| config := cfg; last_trigger := 0 |}.

(** [{_normalize_keyword(k): k for k in predictions.keys()}] *)
Definition normalized_keys (keys : list string) : list (string * string) :=
  fold_left (fun d k => dict_set d (_normalize_keyword k) k) keys [].

Definition _target_keywords (cfg : WakeWordConfig)
    (predictions : list (string * Q)) : list string :=
  match predictions with
  | [] => []
  | _ =>
      let normalized_target := _normalize_keyword (wake_word cfg) in
      match dict_get (normalized_keys (dict_keys predictions))
                     normalized_target with
      | Some k => [k]
      | None => dict_keys predictions
      end
  end.

(** The detector after an accepted trigger at [now]:
    [self.last_trigger = now]. *)
Definition triggered (d : WakeWordDetector) (now : Q) : WakeWordDetector :=
  {| config := config d; last_trigger := now |}.

(** [x < y] on floats. *)
Definition Qltb (x y : Q) : bool := negb (Qle_bool y x).

(** [predictions.get(key, 0.0)] *)
Definition score_of (predictions : list (string * Q)) (key : string) : Q :=
  match dict_get predictions key with Some s => s | None => 0 end.

(** The [for key in ...] loop of [detect]: the first key whose score reaches
    the threshold, with that score (what the log line reports). *)
Fixpoint first_hit (thr : Q) (predictions : list (string * Q))
    (keys : list string) : option (string * Q) :=
  match keys with
  | [] => None
  | key :: rest =>
      let score := score_of predictions key in
      if Qle_bool thr score then Some (key, score)
      else first_hit thr predictions rest
  end.

(** [detect], given what [model.predict(pcm_frame)] and [time.time()] return:
    the answer, the detector afterwards, and the keyword and score logged. *)
Definition detect_logged (d : WakeWordDetector) (predictions : Prediction)
    (now : Q) : bool * WakeWordDetector * option (string * Q) :=
  match predictions with
  | NotADict => (false, d, None)
  | Dict items =>
      if Qltb (now - last_trigger d) (cooldown_s (config d))
      then (false, d, None)
      else
        match first_hit (threshold (config d)) items
                (_target_keywords (config d) items) with
        | Some hit => (true, triggered d now, Some hit)
        | None => (false, d, None)
        end
  end.

Definition detect (d : WakeWordDetector) (predictions : Prediction) (now : Q)
  : bool * WakeWordDetector :=
  fst (detect_logged d predictions now).

(** A run of [detect] calls on one detector, each with its prediction and
    clock reading; the answers in call order and the detector at the end. *)
Fixpoint detect_all (d : WakeWordDetector) (calls : list (Prediction * Q))
  : list bool * WakeWordDetector :=
  match calls with
  | [] => ([], d)
  | (p, now) :: rest =>
      let '(b, d') := detect d p now in
      let '(bs, d'') := detect_all d' rest in
      (b :: bs, d'')
  end.

(** The keys of a prediction whose normalization is that of the configured
    wake word, in iteration order. *)
Definition matching_keys (cfg : WakeWordConfig)
    (predictions : list (string * Q)) : list string :=
  filter (fun k => String.eqb (_normalize_keyword k)
                              (_normalize_keyword (wake_word cfg)))
         (dict_keys predictions).

End WakeWord.

(** ** service.py *)

Module Service.
Import WakeWord.

(** One block of mono int16 samples. *)
Definition Frame : Type := list Z.

Definition Path : Type := string.

Record VoiceRuntimeConfig : Type := {
  sample_rate : Z;
  chunk_ms : Z;
  pre_roll_ms : Z;
  max_record_seconds : Q;
  min_record_seconds : Q;
  silence_threshold : Q;
  silence_ms : Z;
  input_device : option string;
  output_device : option string
}.

(** *** Exceptions and results *)

Inductive Exn : Type :=
| ZeroDivisionError
| Exception (msg : string)        (* any other subclass of [Exception] *)
| BaseException (msg : string).   (* cancellation, interrupt: not an [Exception] *)

Definition is_Exception (e : Exn) : bool :=
  match e with BaseException _ => false | _ => true end.

Inductive Result (A : Type) : Type :=
| Ok (a : A)
| Raise (e : Exn).
Arguments Ok {A} a.
Arguments Raise {A} e.

(** *** Derived sizes *)

(** [int(x)] on a float: truncation toward zero. *)
Definition int_of_float (x : Q) : Z := Z.quot (Qnum x) (Zpos (Qden x)).

(** [x / y], true division. *)
Definition truediv (x y : Q) : Result Q :=
  if Qeq_bool y 0 then Raise ZeroDivisionError else Ok (x / y).

Definition of_int (n : Z) : Q := inject_Z n.

(** [max(1, int(num / chunk_ms))] *)
Definition at_least_one_chunk (num : Q) (chunk : Z) : Result Z :=
  match truediv num (of_int chunk) with
  | Ok x => Ok (Z.max 1 (int_of_float x))
  | Raise e => Raise e
  end.

(** [int(cfg.sample_rate * cfg.chunk_ms / 1000)] *)
Definition frame_samples (cfg : VoiceRuntimeConfig) : Z :=
  int_of_float (of_int (sample_rate cfg * chunk_ms cfg) / 1000).

Definition pre_roll_frames (cfg : VoiceRuntimeConfig) : Result Z :=
  at_least_one_chunk (of_int (pre_roll_ms cfg)) (chunk_ms cfg).

Definition max_frames (cfg : VoiceRuntimeConfig) : Result Z :=
  at_least_one_chunk (max_record_seconds cfg * 1000) (chunk_ms cfg).

Definition min_frames (cfg : VoiceRuntimeConfig) : Result Z :=
  at_least_one_chunk (min_record_seconds cfg * 1000) (chunk_ms cfg).

Definition silence_limit (cfg : VoiceRuntimeConfig) : Result Z :=
  at_least_one_chunk (of_int (silence_ms cfg)) (chunk_ms cfg).

(** *** The pre-roll ring: [collections.deque(maxlen=...)] *)

Record Deque : Type := {
  maxlen : Z;
  items : list Frame
}.

Definition new_deque (n : Z) : Deque := {| maxlen := n; items := [] |}.

(** [ring.append(x)]: add on the right, then drop the leftmost item when the
    length exceeds [maxlen]. *)
Definition deque_append (d : Deque) (x : Frame) : Deque :=
  let l := items d ++ [x] in
  {| maxlen := maxlen d;
     items := if (maxlen d <? Z.of_nat (List.length l))%Z then tl l else l |}.

(** [list(ring)] *)
Definition snapshot (d : Deque) : list Frame := items d.

Definition push_all (d : Deque) (frames : list Frame) : Deque :=
  fold_left deque_append frames d.

(** *** The frame queue *)

(** The outcomes of the successive [q.get(timeout=...)] calls: [Some frame]
    when a frame arrives in time, [None] when [queue.Empty] is raised.  Past
    the listed outcomes no frame arrives anymore. *)
Definition Queue : Type := list (option Frame).

Definition q_get (q : Queue) : option Frame * Queue :=
  match q with
  | [] => (None, [])
  | x :: q' => (x, q')
  end.

(** A queue on which the frames [fs] arrive one per call, followed by [q]. *)
Definition arriving (fs : list Frame) (q : Queue) : Queue := map Some fs ++ q.

(** *** The recorder *)

(** [self._np]: absent, or numpy, of which [_rms] uses
    [float(np.sqrt(np.mean(samples * samples)))] on the float32 samples. *)
Definition Numpy : Type := option (Frame -> Q).

Definition _rms (np : Numpy) (frame : Frame) : Q :=
  match np with
  | None => 0
  | Some root_mean_square => root_mean_square frame
  end.

(** [rms < cfg.silence_threshold] *)
Definition is_quiet (cfg : VoiceRuntimeConfig) (np : Numpy) (frame : Frame)
  : bool :=
  Qltb (_rms np frame) (silence_threshold cfg).

(** The [for _ in range(max_frames)] loop, with [n] iterations left. *)
Fixpoint record_loop (cfg : VoiceRuntimeConfig) (np : Numpy)
    (min_frames silence_limit : Z) (n : nat) (q : Queue)
    (frames : list Frame) (silence_frames : Z) : list Frame * Queue :=
  match n with
  | O => (frames, q)
  | S n' =>
      match q_get q with
      | (None, q') => (frames, q')
      | (Some frame, q') =>
          let frames := frames ++ [frame] in
          let silence_frames :=
            if is_quiet cfg np frame then (silence_frames + 1)%Z else 0%Z in
          if ((min_frames <=? Z.of_nat (List.length frames))
              && (silence_limit <=? silence_frames))%Z
          then (frames, q')
          else record_loop cfg np min_frames silence_limit n' q'
                           frames silence_frames
      end
  end.

(** [_record_utterance]: the frames recorded and what is left of the queue. *)
Definition _record_utterance (cfg : VoiceRuntimeConfig) (np : Numpy)
    (q : Queue) : Result (list Frame * Queue) :=
  match max_frames cfg with
  | Raise e => Raise e
  | Ok max_frames =>
  match min_frames cfg with
  | Raise e => Raise e
  | Ok min_frames =>
  match silence_limit cfg with
  | Raise e => Raise e
  | Ok silence_limit =>
      Ok (record_loop cfg np min_frames silence_limit
                      (Z.to_nat max_frames) q [] 0%Z)
  end end end.

(** *** The utterance handler *)

(** What the service does to the outside, in order. *)
Inductive Event : Type :=
| Transcribe (audio : Path)
| AskAgent (text : string)
| SetSpeaking (b : bool)
| Speak (text : string) (out : Path)
| Play (audio : Path)
| Log (msg : string).

(** The fields of [self] the handler and the loop share, and the record of
    what has been done. *)
Record Service : Type := {
  _running : bool;
  _speaking : bool;
  trace : list Event
}.

(** The collaborators: each call returns or raises. *)
Record Capabilities : Type := {
  transcribe : Path -> Result string;
  process_direct : string -> Result (option string);
  speak : string -> Path -> Result (option Path);
  (** [_play_wav] gives up at once when sounddevice or numpy is absent *)
  audio_deps : bool;
  (** opening, decoding and playing the file through sounddevice *)
  sd_play : Path -> Result unit;
  (** the acoustic model *)
  predict : Frame -> Prediction;
  numpy : Numpy;
  (** writing the wave file; [None] when an error was logged *)
  write_frames : list Frame -> option Path;
  (** [self._loop] is set *)
  has_loop : bool
}.


(** State and exceptions. *)
Definition M (A : Type) : Type := Service -> Result A * Service.

Definition ret {A : Type} (a : A) : M A := fun s => (Ok a, s).

Definition raise {A : Type} (e : Exn) : M A := fun s => (Raise e, s).

Definition bind {A B : Type} (m : M A) (k : A -> M B) : M B :=
  fun s =>
    match m s with
    | (Ok a, s') => k a s'
    | (Raise e, s') => (Raise e, s')
    end.

Notation "x <- m ;; k" := (bind m (fun x => k))
  (at level 61, m at next level, right associativity).
Notation "m ;;; k" := (bind m (fun _ => k))
  (at level 61, right associativity).

(** [try: body finally: cleanup] *)
Definition try_finally {A : Type} (body : M A) (cleanup : M unit) : M A :=
  fun s =>
    let '(r, s1) := body s in
    match cleanup s1 with
    | (Ok _, s2) => (r, s2)
    | (Raise e, s2) => (Raise e, s2)
    end.

(** [try: body except Exception as e: handler(e)] *)
Definition try_except {A : Type} (body : M A) (handler : Exn -> M A) : M A :=
  fun s =>
    match body s with
    | (Raise e, s1) => if is_Exception e then handler e s1 else (Raise e, s1)
    | done => done
    end.

Definition emit (e : Event) : M unit :=
  fun s => (Ok tt, {| _running := _running s; _speaking := _speaking s;
                      trace := trace s ++ [e] |}).

(** [self._speaking = b] *)
Definition set_speaking (b : bool) : M unit :=
  fun s => (Ok tt, {| _running := _running s; _speaking := b;
                      trace := trace s ++ [SetSpeaking b] |}).

(** A call to a collaborator: noted, then its outcome. *)
Definition call {A : Type} (e : Event) (outcome : Result A) : M A :=
  emit e ;;; fun s => (outcome, s).

Definition response_wav : Path := "response.wav"%string.

Definition _play_wav (caps : Capabilities) (path : Path) : M unit :=
  if negb (audio_deps caps) then ret tt
  else try_except (call (Play path) (sd_play caps path))
                  (fun _ => emit (Log "Failed to play audio")).

Definition is_empty (s : string) : bool :=
  match s with EmptyString => true | _ => false end.

(** [not response] for [response : str | None] *)
Definition no_response (r : option string) : bool :=
  match r with None => true | Some s => is_empty s end.

Definition _handle_utterance (caps : Capabilities) (audio_path : Path)
  : M unit :=
  text <- call (Transcribe audio_path) (transcribe caps audio_path) ;;
  if is_empty text then emit (Log "No transcription result")
  else
    emit (Log ("Transcribed: " ++ text)) ;;;
    response <- call (AskAgent text) (process_direct caps text) ;;
    match response with
    | None => ret tt
    | Some reply =>
        if is_empty reply then ret tt
        else
          set_speaking true ;;;
          try_finally
            (tts_path <- call (Speak reply response_wav)
                              (speak caps reply response_wav) ;;
             match tts_path with
             | Some p => _play_wav caps p
             | None => ret tt
             end)
            (set_speaking false)
    end.

(** *** The pipeline loop *)

(** The variables of [_run_blocking] that live across iterations. *)
Record Loop : Type := {
  ring : Deque;
  detector : WakeWordDetector;
  q : Queue
}.

Definition _write_wav (caps : Capabilities) (frames : list Frame)
  : option Path :=
  match frames with
  | [] => None
  | _ => write_frames caps frames
  end.

(** One pass through the body of [while self._running], where [now] is what
    [time.time()] reads during it. *)
Definition loop_body (cfg : VoiceRuntimeConfig) (caps : Capabilities)
    (now : Q) (l : Loop) : M Loop :=
  fun s =>
  match q_get (q l) with
  | (None, q') =>
      (Ok {| ring := ring l; detector := detector l; q := q' |}, s)
  | (Some frame, q') =>
      if _speaking s
      then (Ok {| ring := ring l; detector := detector l; q := q' |}, s)
      else
        let ring' := deque_append (ring l) frame in
        let '(hit, detector') := detect (detector l) (predict caps frame) now in
        if hit then
          match _record_utterance cfg (numpy caps) q' with
          | Raise e => (Raise e, s)
          | Ok (recorded, q'') =>
              let utterance := snapshot ring' ++ recorded in
              let l' := {| ring := ring'; detector := detector'; q := q'' |} in
              match _write_wav caps utterance with
              | Some audio_path =>
                  if has_loop caps then
                    (try_except (_handle_utterance caps audio_path)
                                (fun _ => emit (Log "Voice handler error"))
                     ;;; ret l') s
                  else (Ok l', s)
              | None => (Ok l', s)
              end
          end
        else (Ok {| ring := ring'; detector := detector'; q := q' |}, s)
  end.

(** The set-up of [_run_blocking] ahead of the loop: no loop at all when the
    frame size is not positive, else an empty ring of [pre_roll_frames]. *)
Definition listen_setup (cfg : VoiceRuntimeConfig) (wake : WakeWordConfig)
    (q : Queue) : Result (option Loop) :=
  if (frame_samples cfg <=? 0)%Z then Ok None
  else
    match pre_roll_frames cfg with
    | Raise e => Raise e
    | Ok n => Ok (Some {| ring := new_deque n;
                          detector := new_detector wake; q := q |})
    end.

(** [while self._running: ...], one clock reading per pass. *)
Fixpoint run_loop (cfg : VoiceRuntimeConfig) (caps : Capabilities)
    (clock : list Q) (l : Loop) : M Loop :=
  match clock with
  | [] => ret l
  | now :: later =>
      fun s =>
        if _running s
        then (l' <- loop_body cfg caps now l ;; run_loop cfg caps later l') s
        else (Ok l, s)
  end.

End Service.

(** ** Runs of the gate *)

Module Runs.
Import WakeWord.

(** The clock readings of the calls that were answered true. *)
Fixpoint accepted (calls : list (Prediction * Q)) (answers : list bool)
  : list Q :=
  match calls, answers with
  | (_, t) :: calls', true :: answers' => t :: accepted calls' answers'
  | _ :: calls', false :: answers' => accepted calls' answers'
  | _, _ => []
  end.

(** Each time is at least [gap] after the one before it, the first one after
    [last]. *)
Fixpoint spaced (gap last : Q) (times : list Q) : Prop :=
  match times with
  | [] => True
  | t :: rest => (gap <= t - last)%Q /\ spaced gap t rest
  end.

End Runs.

(** ** openai_audio.py *)

Module AudioClient.
Import PyStr Service.

Record OpenAIAudioClient : Type := {
  api_key : string;
  api_base : string;
  transcribe_model : string;
  tts_model : string;
  tts_voice : string;
  tts_speed : Q;
  tts_format : string
}.

Definition slash : ascii := "/"%char.

Fixpoint drop_leading (ch : ascii) (l : list ascii) : list ascii :=
  match l with
  | c :: l' => if Ascii.eqb c ch then drop_leading ch l' else l
  | [] => []
  end.

(** [s.rstrip("/")] *)
Definition rstrip_slashes (s : string) : string :=
  string_of_list_ascii
    (rev (drop_leading slash (rev (list_ascii_of_string s)))).

(** [s.strip()] *)
Definition strip_str (s : string) : string :=
  string_of_list_ascii (strip (list_ascii_of_string s)).

(** [OpenAIAudioClient.__init__] *)
Definition new_client (key base transcribe_model tts_model tts_voice : string)
    (tts_speed : Q) (tts_format : string) : OpenAIAudioClient :=
  {| api_key := key; api_base := rstrip_slashes base;
     transcribe_model := transcribe_model; tts_model := tts_model;
     tts_voice := tts_voice; tts_speed := tts_speed;
     tts_format := tts_format |}.

Definition _headers (c : OpenAIAudioClient) : list (string * string) :=
  [("Authorization", "Bearer " ++ api_key c)]%string.

(** The form posted to the transcription endpoint, with the file. *)
Record TranscriptionRequest : Type := {
  t_url : string;
  t_headers : list (string * string);
  t_data : list (string * string);
  t_file : Path
}.

(** The JSON posted to the speech endpoint. *)
Record SpeechRequest : Type := {
  s_url : string;
  s_headers : list (string * string);
  s_model : string;
  s_voice : string;
  s_input : string;
  s_response_format : string;
  s_speed : Q
}.

(** What the client does to the outside, in order. *)
Inductive ClientEvent : Type :=
| AttemptTranscription (r : TranscriptionRequest)
| AttemptSpeech (r : SpeechRequest)
| Wrote (path : Path) (content : string)
| LoggedError (msg : string).

(** The file system and httpx.  [post_transcription] stands for opening the
    file, the POST, [raise_for_status()], [json()] and
    [payload.get("text")] put through [str]: the field if the payload has
    it, or what was raised on the way.  [post_speech] stands for the POST,
    [raise_for_status()] and [response.content]; [save] for creating the
    parent directory and [write_bytes]. *)
Record Network : Type := {
  exists_file : Path -> bool;
  post_transcription : TranscriptionRequest -> Result (option string);
  post_speech : SpeechRequest -> Result string;
  save : Path -> string -> Result unit
}.

Definition transcription_request (c : OpenAIAudioClient) (file_path : Path)
    (language : option string) : TranscriptionRequest :=
  {| t_url := (api_base c ++ "/audio/transcriptions")%string;
     t_headers := _headers c;
     t_data :=
       [("model", transcribe_model c); ("response_format", "json")]%string
       ++ match language with
          | Some lang => if is_empty lang then [] else [("language"%string, lang)]
          | None => []
          end;
     t_file := file_path |}.

Definition transcribe (c : OpenAIAudioClient) (net : Network)
    (file_path : Path) (language : option string)
  : Result string * list ClientEvent :=
  if negb (exists_file net file_path)
  then (Ok ""%string, [LoggedError "Audio file not found"])
  else
    let request := transcription_request c file_path language in
    match post_transcription net request with
    | Ok field =>
        (Ok (strip_str (match field with Some t => t | None => ""%string end)),
         [AttemptTranscription request])
    | Raise e =>
        if is_Exception e
        then (Ok ""%string,
              [AttemptTranscription request;
               LoggedError "OpenAI transcription error"])
        else (Raise e, [AttemptTranscription request])
    end.

Definition speech_request (c : OpenAIAudioClient) (text : string)
  : SpeechRequest :=
  {| s_url := (api_base c ++ "/audio/speech")%string;
     s_headers := _headers c;
     s_model := tts_model c; s_voice := tts_voice c; s_input := text;
     s_response_format := tts_format c; s_speed := tts_speed c |}.

(** [except Exception as e: logger.error(...); return None] *)
Definition tts_failed (e : Exn) (done : list ClientEvent)
  : Result (option Path) * list ClientEvent :=
  if is_Exception e
  then (Ok None, done ++ [LoggedError "OpenAI TTS error"])
  else (Raise e, done).

Definition speak (c : OpenAIAudioClient) (net : Network) (text : string)
    (output_path : Path) : Result (option Path) * list ClientEvent :=
  let request := speech_request c text in
  match post_speech net request with
  | Ok content =>
      match save net output_path content with
      | Ok _ => (Ok (Some output_path),
                 [AttemptSpeech request; Wrote output_path content])
      | Raise e => tts_failed e [AttemptSpeech request]
      end
  | Raise e => tts_failed e [AttemptSpeech request]
  end.

(** [x or None] *)
Definition or_none (x : option string) : option string :=
  match x with
  | Some t => if is_empty t then None else Some t
  | None => None
  end.

(** The collaborators of the handler when transcription and synthesis go
    through this client, as [_handle_utterance] calls it:
    [transcribe(audio_path, language=self.config.voice.language or None)]
    and [speak(response, ...)]. *)
Definition with_client (c : OpenAIAudioClient) (net : Network)
    (language : option string) (caps : Capabilities) : Capabilities :=
  {| Service.transcribe :=
       fun audio => fst (transcribe c net audio (or_none language));
     process_direct := process_direct caps;
     Service.speak := fun text out => fst (speak c net text out);
     audio_deps := audio_deps caps; sd_play := sd_play caps;
     predict := predict caps; numpy := numpy caps;
     write_frames := write_frames caps; has_loop := has_loop caps |}.

End AudioClient.

(** ** service.py: construction, start and stop *)

Module Lifecycle.
Import WakeWord Service.

(** [a or b] on optional strings: [a] unless it is [None] or empty. *)
Definition or_else (a b : option string) : option string :=
  match a with
  | Some x => if is_empty x then b else a
  | None => b
  end.

Definition key_missing : Exn :=
  Exception
    "OpenAI API key missing. Set voice.openaiApiKey or providers.openai.apiKey.".

(** The key look-up of [__init__]:
    [voice_cfg.openai_api_key or config.providers.openai.api_key
     or os.environ.get("OPENAI_API_KEY")], then [if not api_key: raise]. *)
Definition resolve_api_key (voice_key provider_key env_key : option string)
  : Result string :=
  match or_else (or_else voice_key provider_key) env_key with
  | Some k => if is_empty k then Raise key_missing else Ok k
  | None => Raise key_missing
  end.

(** [self._running = b] *)
Definition set_running (b : bool) : M unit :=
  fun s => (Ok tt, {| _running := b; _speaking := _speaking s;
                      trace := trace s |}).

Definition stop : M unit := set_running false.

(** Loading the openWakeWord model in [WakeWordDetector.__init__]. *)
Inductive ModelLoad : Type :=
| Loaded
| DependencyMissing            (* [WakeWordDependencyError] *)
| LoadFailed (e : Exn).

(** The machine the service runs on. *)
Record Host : Type := {
  audio_imports : bool;        (* numpy and sounddevice can be imported *)
  model_load : ModelLoad;
  open_stream : Result unit    (* entering [sd.InputStream(...)] *)
}.

Definition deps_missing : Exn :=
  Exception
    "Audio dependencies missing. Install with: pip install 'nanobot-ai[voice]'".

Definition _import_deps (host : Host) : M unit :=
  if audio_imports host then ret tt else raise deps_missing.

Definition _run_blocking (cfg : VoiceRuntimeConfig) (wake : WakeWordConfig)
    (caps : Capabilities) (host : Host) (clock : list Q) (q0 : Queue)
  : M unit :=
  _import_deps host ;;;
  match model_load host with
  | DependencyMissing =>
      emit (Log "openwakeword is required for wake word detection.")
  | LoadFailed e => raise e
  | Loaded =>
      match listen_setup cfg wake q0 with
      | Raise e => raise e
      | Ok None => emit (Log "Invalid chunk_ms/sample_rate configuration")
      | Ok (Some l) =>
          try_except
            (match open_stream host with
             | Raise e => raise e
             | Ok _ =>
                 emit (Log "Listening for wake word...") ;;;
                 (_ <- run_loop cfg caps clock l ;; ret tt)
             end)
            (fun _ => emit (Log "Audio stream error"))
      end
  end.

(** [self._loop = asyncio.get_running_loop()] *)
Definition loop_set (caps : Capabilities) : Capabilities :=
  {| transcribe := transcribe caps; process_direct := process_direct caps;
     speak := speak caps; audio_deps := audio_deps caps;
     sd_play := sd_play caps; predict := predict caps; numpy := numpy caps;
     write_frames := write_frames caps; has_loop := true |}.

(** [start], with [asyncio.to_thread(self._run_blocking)] awaited. *)
Definition start (cfg : VoiceRuntimeConfig) (wake : WakeWordConfig)
    (caps : Capabilities) (host : Host) (clock : list Q) (q0 : Queue)
  : M unit :=
  fun s =>
    if _running s then (Ok tt, s)
    else
      (set_running true ;;;
       emit (Log "Voice assistant started") ;;;
       try_finally (_run_blocking cfg wake (loop_set caps) host clock q0)
                   (set_running false ;;;
                    emit (Log "Voice assistant stopped"))) s.

End Lifecycle.

(** ** Sample data *)

Module Samples.
Import WakeWord Service.
Local Open Scope Q_scope.

Definition wake_cfg : WakeWordConfig :=
  {| wake_word := "hey nano"; model_paths := None;
     threshold := 1 # 2; cooldown_s := 2 |}.

Definition one_model : Prediction := Dict [("hey_nano"%string, 9 # 10)].

(** Two model labels with one normalization, the first one scoring high. *)
Definition twin_items : list (string * Q) :=
  [("hey_nano"%string, 9 # 10); ("Hey Nano"%string, 1 # 10)].

(** No label is the wake word; the second one scores high. *)
Definition other_items : list (string * Q) :=
  [("alexa"%string, 1 # 10); ("hey_jarvis"%string, 7 # 10);
   ("hey_mycroft"%string, 8 # 10)].

(** 20 ms chunks: a ring of 3 frames, recordings of 2 to 10 frames, 2 quiet
    frames to stop. *)
Definition run_cfg : VoiceRuntimeConfig :=
  {| sample_rate := 16000; chunk_ms := 20; pre_roll_ms := 60;
     max_record_seconds := 1 # 5; min_record_seconds := 1 # 25;
     silence_threshold := 500; silence_ms := 40;
     input_device := None; output_device := None |}.

(** Every duration at zero: all limits fall back to one frame. *)
Definition zero_cfg : VoiceRuntimeConfig :=
  {| sample_rate := 16000; chunk_ms := 20; pre_roll_ms := 0;
     max_record_seconds := 0; min_record_seconds := 0;
     silence_threshold := 500; silence_ms := 5;
     input_device := None; output_device := None |}.

(** An integer stand-in for numpy's root mean square. *)
Definition int_rms (f : Frame) : Q :=
  match f with
  | [] => 0
  | _ => inject_Z (Z.sqrt (fold_left (fun a x => a + x * x) f 0
                           / Z.of_nat (List.length f)))%Z
  end.

Definition loud : Frame := [1000; -1200; 900]%Z.
Definition hush : Frame := [3; -4; 0]%Z.

Definition wav : Path := "utterance_1.wav"%string.

Definition caps : Capabilities :=
  {| transcribe := fun _ => Ok "what time is it"%string;
     process_direct := fun _ => Ok (Some "noon"%string);
     speak := fun _ out => Ok (Some out);
     audio_deps := true;
     sd_play := fun _ => Raise (BaseException "cancelled");
     predict := fun _ => one_model;
     numpy := Some int_rms;
     write_frames := fun _ => Some wav;
     has_loop := true |}.

(** The same collaborators with another transcription and agent. *)
Definition caps_with (heard : string) (reply : option string) : Capabilities :=
  {| transcribe := fun _ => Ok heard;
     process_direct := fun _ => Ok reply;
     speak := speak caps; audio_deps := audio_deps caps;
     sd_play := sd_play caps; predict := predict caps; numpy := numpy caps;
     write_frames := write_frames caps; has_loop := has_loop caps |}.

Definition idle : Service :=
  {| _running := true; _speaking := false; trace := [] |}.

Definition talking : Service :=
  {| _running := true; _speaking := true; trace := [] |}.

Definition fresh_loop (q : Queue) : Loop :=
  {| ring := new_deque 3; detector := new_detector wake_cfg; q := q |}.

End Samples.

Module MoreSamples.
Import WakeWord Service AudioClient Lifecycle.
Local Open Scope Q_scope.

Definition client : OpenAIAudioClient :=
  new_client "sk-test" "https://api.example.com/v1//" "gpt-4o-mini-transcribe"
             "gpt-4o-mini-tts" "alloy" 1 "wav".

(** The file is there, the service answers with blanks only, synthesis is
    refused. *)
Definition blank_net : Network :=
  {| exists_file := fun _ => true;
     post_transcription := fun _ => Ok (Some "  "%string);
     post_speech := fun _ => Raise (Exception "503");
     save := fun _ _ => Ok tt |}.


(** The recording is not there. *)
Definition no_file_net : Network :=
  {| exists_file := fun _ => false;
     post_transcription := fun _ => Ok (Some "never asked"%string);
     post_speech := fun _ => Raise (Exception "503");
     save := fun _ _ => Ok tt |}.


Definition stopped : Service :=
  {| _running := false; _speaking := false; trace := [] |}.

Definition host : Host :=
  {| audio_imports := true; model_load := Loaded; open_stream := Ok tt |}.

(** A trigger frame, four frames to record, one left over. *)
Definition busy_queue : Queue :=
  [Some Samples.loud; Some Samples.loud; Some Samples.loud;
   Some Samples.hush; Some Samples.hush; Some Samples.hush].

End MoreSamples.

(** ** Facts about characters and trimming *)

Module PyStrFacts.
Import PyStr WakeWord.

Ltac all_chars c :=
  destruct c as [[] [] [] [] [] [] [] []]; vm_compute; try reflexivity.

Lemma is_space_lower c : is_space (lower_char c) = is_space c.
Proof. all_chars c. Qed.





Lemma lstrip_blank w l : blank w = true -> lstrip (w ++ l) = lstrip l.
Proof.
  induction w as [|c w IH]; simpl; [easy|].
  intros H. apply andb_true_iff in H as [-> H]. auto.
Qed.

Lemma lstrip_all_blank w : blank w = true -> lstrip w = [].
Proof.
  intros H. rewrite <- (app_nil_r w). now rewrite lstrip_blank.
Qed.

(** [lstrip] removes a blank prefix and nothing else. *)
Lemma lstrip_split l :
  exists w, l = w ++ lstrip l /\ blank w = true /\ hd_space (lstrip l) = false.
Proof.
  induction l as [|c l (w & E & B & H)]; simpl.
  - now exists [].
  - destruct (is_space c) eqn:Hc.
    + exists (c :: w). simpl. rewrite Hc, B. repeat split; auto.
      now f_equal.
    + exists []. simpl. now rewrite Hc.
Qed.

Lemma blank_rev w : blank (rev w) = blank w.
Proof.
  unfold blank. induction w as [|c w IH]; simpl; [easy|].
  rewrite forallb_app, IH. simpl. now rewrite andb_true_r, andb_comm.
Qed.

Lemma hd_space_app l l' :
  hd_space (l ++ l') = match l with [] => hd_space l' | _ => hd_space l end.
Proof. now destruct l. Qed.

(** [strip] removes a blank prefix and a blank suffix, and its result has no
    white space at either end. *)
Lemma strip_split l :
  exists w1 w2,
    l = w1 ++ strip l ++ w2 /\ blank w1 = true /\ blank w2 = true
    /\ trimmed (strip l) = true.
Proof.
  unfold strip, rstrip.
  destruct (lstrip_split l) as (w1 & E1 & B1 & H1).
  destruct (lstrip_split (rev (lstrip l))) as (w2 & E2 & B2 & H2).
  set (a := lstrip l) in *. set (b := lstrip (rev a)) in *.
  assert (Ea : a = rev b ++ rev w2).
  { rewrite <- rev_app_distr, <- E2. now rewrite rev_involutive. }
  exists w1, (rev w2). repeat split; auto.
  - now rewrite <- Ea.
  - now rewrite blank_rev.
  - unfold trimmed. rewrite rev_involutive, H2. simpl. rewrite andb_true_r.
    rewrite Ea, hd_space_app in H1.
    destruct (rev b); [reflexivity|]. now rewrite H1.
Qed.






Section NormChar.



End NormChar.


End PyStrFacts.

(** ** Keyword normalization *)

Module NormalizeFacts.
Import PyStr WakeWord PyStrFacts.









End NormalizeFacts.

(** ** The wake-word gate *)

Module DetectFacts.
Import WakeWord.
Local Open Scope Q_scope.

Lemma Qltb_true x y : Qltb x y = true <-> x < y.
Proof.
  unfold Qltb. rewrite negb_true_iff, <- not_true_iff_false, Qle_bool_iff.
  split; [apply Qnot_le_lt | apply Qlt_not_le].
Qed.

Lemma Qltb_false x y : Qltb x y = false <-> y <= x.
Proof.
  unfold Qltb. rewrite negb_false_iff. apply Qle_bool_iff.
Qed.

(** A call either rejects and leaves the detector as it was, or accepts and
    stamps the detector with the time of the call. *)
Lemma detect_cases d p now :
  detect d p now = (false, d) \/ detect d p now = (true, triggered d now).
Proof.
  unfold detect, detect_logged.
  destruct p as [|items]; [now left|].
  destruct (Qltb _ _); [now left|].
  destruct (first_hit _ _ _); [now right | now left].
Qed.

Lemma detect_in_cooldown d p now :
  now - last_trigger d < cooldown_s (config d) -> detect d p now = (false, d).
Proof.
  intros H. apply Qltb_true in H. unfold detect, detect_logged.
  destruct p; [easy|]. now rewrite H.
Qed.

(** While every call falls inside the cooldown window nothing is accepted and
    the detector stays put. *)
Lemma detect_all_in_cooldown d calls :
  Forall (fun c => snd c - last_trigger d < cooldown_s (config d)) calls ->
  detect_all d calls = (map (fun _ => false) calls, d).
Proof.
  induction 1 as [|[p t] calls H _ IH]; simpl; [easy|].
  rewrite (detect_in_cooldown d p t H). now rewrite IH.
Qed.

(** C4: once a call at [t1] has answered true, a call at [t2] with
    [t2 - t1 < cooldown_s] answers false whatever the model predicts, and so
    do the calls made in between (at clock readings up to [t2]); and every
    call that answers false leaves the detector, hence its last-trigger
    timestamp, untouched, while one that answers true sets it to the time of
    that call. *)
Theorem detect_cooldown (d : WakeWordDetector) (p1 : Prediction) (t1 : Q)
    (between : list (Prediction * Q)) (p2 : Prediction) (t2 : Q) :
  fst (detect d p1 t1) = true ->
  t2 - t1 < cooldown_s (config d) ->
  Forall (fun c => snd c <= t2) between ->
  let d1 := snd (detect d p1 t1) in
  let d2 := snd (detect_all d1 between) in
  fst (detect d2 p2 t2) = false
  /\ Forall (fun b => b = false) (fst (detect_all d1 between))
  /\ (forall d0 p now,
        (fst (detect d0 p now) = false -> snd (detect d0 p now) = d0)
        /\ (fst (detect d0 p now) = true ->
            snd (detect d0 p now) = triggered d0 now)).
Proof.
  intros Hit Near Mono d1 d2.
  assert (E1 : d1 = triggered d t1).
  { unfold d1. destruct (detect_cases d p1 t1) as [E|E]; rewrite E in *;
      [discriminate Hit | reflexivity]. }
  assert (Quiet : detect_all d1 between
                  = (map (fun _ => false) between, d1)).
  { apply detect_all_in_cooldown. rewrite E1. simpl.
    eapply Forall_impl; [|exact Mono]. intros [p t]. simpl. intros Ht. lra. }
  unfold d2. rewrite Quiet. simpl. repeat split.
  - rewrite detect_in_cooldown; [reflexivity|]. now rewrite E1.
  - apply Forall_forall. intros b Hb. apply in_map_iff in Hb as (_ & <- & _).
    reflexivity.
  - destruct (detect_cases d0 p now) as [E|E]; rewrite E; simpl; congruence.
  - destruct (detect_cases d0 p now) as [E|E]; rewrite E; simpl; congruence.
Qed.

Lemma detect_cooldown_witness :
  fst (detect (snd (detect (new_detector Samples.wake_cfg) Samples.one_model 100))
              Samples.one_model 101) = false.
Proof.
  refine (proj1 (detect_cooldown (new_detector Samples.wake_cfg)
                   Samples.one_model 100 [(Samples.one_model, 201 # 2)]
                   Samples.one_model 101 _ _ _)).
  - reflexivity.
  - reflexivity.
  - repeat constructor. simpl. discriminate.
Defined.

Lemma dict_get_set {V : Type} (d : list (string * V)) k v t :
  dict_get (dict_set d k v) t
  = if String.eqb k t then Some v else dict_get d t.
Proof.
  induction d as [|[k' v'] d IH]; simpl; [reflexivity|].
  destruct (String.eqb k' k) eqn:E; simpl.
  - apply String.eqb_eq in E. subst k'. now destruct (String.eqb k t).
  - rewrite IH. destruct (String.eqb k' t) eqn:E'; [|reflexivity].
    apply String.eqb_eq in E'. subst k'. now rewrite String.eqb_sym, E.
Qed.

(** Looking a normalized name up in the comprehension finds the last key
    with that normalization. *)
Lemma fold_dict_set_get (f : string -> string) keys acc t :
  dict_get (fold_left (fun d k => dict_set d (f k) k) keys acc) t
  = match rev (filter (fun k => String.eqb (f k) t) keys) with
    | k :: _ => Some k
    | [] => dict_get acc t
    end.
Proof.
  revert acc. induction keys as [|k keys IH]; intros acc; simpl; [easy|].
  rewrite IH, dict_get_set.
  destruct (String.eqb (f k) t); simpl; [|reflexivity].
  now destruct (rev (filter _ keys)).
Qed.

Lemma target_keywords_spec cfg items :
  _target_keywords cfg items
  = match rev (matching_keys cfg items) with
    | k :: _ => [k]
    | [] => dict_keys items
    end.
Proof.
  unfold _target_keywords, normalized_keys, matching_keys.
  rewrite fold_dict_set_get. simpl.
  destruct items as [|i items]; [reflexivity|].
  now destruct (rev _).
Qed.

Lemma first_hit_find thr items keys :
  first_hit thr items keys
  = option_map (fun k => (k, score_of items k))
      (find (fun k => Qle_bool thr (score_of items k)) keys).
Proof.
  induction keys as [|k keys IH]; simpl; [reflexivity|].
  now destruct (Qle_bool thr (score_of items k)).
Qed.

(** C6 refuted: with the labels ["hey_nano"] (score 0.9) and ["Hey Nano"]
    (score 0.1), wake word ["hey nano"], threshold 0.5 and the cooldown over,
    the wake word matches two predicted keywords, not exactly one, a predicted
    keyword reaches the threshold, and yet [detect] answers false: it looked
    at the second label only. *)
Lemma detect_twin_labels_rejected :
  let d := new_detector Samples.wake_cfg in
  Qltb (100 - last_trigger d) (cooldown_s (config d)) = false
  /\ List.length (matching_keys (config d) Samples.twin_items) = 2%nat
  /\ existsb (fun k => Qle_bool (threshold (config d))
                                (score_of Samples.twin_items k))
             (dict_keys Samples.twin_items) = true
  /\ detect d (Dict Samples.twin_items) 100 = (false, d).
Proof. vm_compute. repeat split. Qed.

(** C6, amended: with the cooldown over, when the normalized wake word is
    the normalization of at least one predicted keyword, [detect] compares
    the score of the last such keyword in iteration order, and of no other,
    with the threshold (when there is exactly one, that one); when it is the
    normalization of none, [detect] answers true on the first predicted
    keyword in iteration order whose score reaches the threshold, and false
    when there is none.  A prediction that is empty or not a mapping is
    answered false with the detector unchanged. *)
Theorem detect_keyword_selection (d : WakeWordDetector)
    (items : list (string * Q)) (now : Q) :
  Qltb (now - last_trigger d) (cooldown_s (config d)) = false ->
  let qualifies := fun k =>
    Qle_bool (threshold (config d)) (score_of items k) in
  let answer := fun hit : option string =>
    match hit with
    | Some k => (true, triggered d now, Some (k, score_of items k))
    | None => (false, d, None)
    end in
  (forall ks k, matching_keys (config d) items = ks ++ [k] ->
     detect_logged d (Dict items) now
     = answer (if qualifies k then Some k else None))
  /\ (matching_keys (config d) items = [] ->
      detect_logged d (Dict items) now
      = answer (find qualifies (dict_keys items)))
  /\ detect_logged d (Dict []) now = (false, d, None)
  /\ detect_logged d NotADict now = (false, d, None).
Proof.
  intros Cool qualifies answer.
  assert (E : detect_logged d (Dict items) now
              = answer (find qualifies (_target_keywords (config d) items))).
  { unfold detect_logged. rewrite Cool, first_hit_find.
    fold qualifies. now destruct (find qualifies _). }
  repeat split.
  - intros ks k Hm. rewrite E, target_keywords_spec, Hm, rev_app_distr.
    simpl. now destruct (qualifies k).
  - intros Hm. now rewrite E, target_keywords_spec, Hm.
  - unfold detect_logged. now rewrite Cool.
Qed.

Lemma detect_keyword_selection_witness :
  detect_logged (new_detector Samples.wake_cfg) (Dict Samples.other_items) 100
  = (true, triggered (new_detector Samples.wake_cfg) 100,
     Some ("hey_jarvis"%string, 7 # 10)).
Proof.
  exact (proj1 (proj2 (detect_keyword_selection
                         (new_detector Samples.wake_cfg) Samples.other_items
                         100 eq_refl)) eq_refl).
Defined.

End DetectFacts.

(** ** Derived sizes *)

Module SizeFacts.
Import WakeWord Service.

Lemma max_one_truncate (x : Q) :
  Z.max 1 (int_of_float x) = Z.max 1 (Qfloor x).
Proof.
  destruct x as [n d]. unfold int_of_float, Qfloor. simpl.
  destruct (Z.neg_nonneg_cases n) as [Hn|Hn].
  - assert (Z.quot n (Zpos d) <= 0)%Z.
    { replace n with (- - n)%Z by lia. rewrite Z.quot_opp_l by lia.
      pose proof (Z.quot_pos (- n) (Zpos d)). lia. }
    assert (n / Zpos d < 0)%Z by (apply Z.div_lt_upper_bound; lia).
    lia.
  - now rewrite Z.quot_div_nonneg by lia.
Qed.

Lemma of_int_nonzero (n : Z) : n <> 0%Z -> Qeq_bool (of_int n) 0 = false.
Proof.
  intros H. apply not_true_iff_false. intros E. apply Qeq_bool_eq in E.
  unfold of_int, Qeq in E. simpl in E. lia.
Qed.

(** With a non-zero chunk length every derived size is defined, is the floor
    of the quotient or 1 if that is less, and so is at least 1. *)
Lemma at_least_one_chunk_ok (num : Q) (chunk : Z) :
  chunk <> 0%Z ->
  at_least_one_chunk num chunk
  = Ok (Z.max 1 (Qfloor (num / of_int chunk))).
Proof.
  intros H. unfold at_least_one_chunk, truediv.
  rewrite (of_int_nonzero chunk H). now rewrite max_one_truncate.
Qed.

(** The guard of [_run_blocking] rules out a zero chunk length. *)
Lemma frame_samples_chunk (cfg : VoiceRuntimeConfig) :
  (0 < frame_samples cfg)%Z -> chunk_ms cfg <> 0%Z.
Proof.
  intros H E. unfold frame_samples in H. rewrite E, Z.mul_0_r in H.
  vm_compute in H. discriminate.
Qed.

End SizeFacts.

(** ** The pre-roll ring *)

Module RingFacts.
Import WakeWord Service SizeFacts.

Lemma push_all_snoc d frames x :
  push_all d (frames ++ [x]) = deque_append (push_all d frames) x.
Proof. unfold push_all. now rewrite fold_left_app. Qed.

Lemma maxlen_push_all d frames : maxlen (push_all d frames) = maxlen d.
Proof.
  induction frames as [|x frames IH] using rev_ind; [reflexivity|].
  now rewrite push_all_snoc.
Qed.

Lemma tl_skipn_snoc {A : Type} (k : nat) (l : list A) (x : A) :
  (k < List.length l)%nat ->
  tl (skipn k l ++ [x]) = skipn (S k) (l ++ [x]).
Proof.
  revert l. induction k as [|k IH]; intros [|y l] H; simpl in *; try lia.
  - reflexivity.
  - destruct l as [|z l]; [simpl in H; lia|].
    apply (IH (z :: l)). simpl in *. lia.
Qed.

(** A ring of capacity [cap >= 1] that started empty holds the last [cap]
    frames pushed, oldest first. *)
Lemma ring_holds_last (cap : Z) (frames : list Frame) :
  (1 <= cap)%Z ->
  items (push_all (new_deque cap) frames)
  = skipn (List.length frames - Z.to_nat cap) frames.
Proof.
  intros Hcap. induction frames as [|x frames IH] using rev_ind.
  - now rewrite skipn_nil.
  - rewrite push_all_snoc. unfold deque_append.
    rewrite maxlen_push_all, IH. cbn [items maxlen new_deque].
    set (n := List.length frames). set (c := Z.to_nat cap).
    rewrite !length_app, length_skipn. fold n. cbn [List.length].
    destruct (Z.ltb_spec cap (Z.of_nat (n - (n - c) + 1))) as [Full|Room].
    + assert (c <= n)%nat by lia.
      rewrite tl_skipn_snoc by (fold n; lia).
      f_equal. lia.
    + assert (n < c)%nat by lia.
      replace (n - c)%nat with 0%nat by lia.
      replace (n + 1 - c)%nat with 0%nat by lia. reflexivity.
Qed.


(** C3: the ring is created with capacity
    [max(1, floor(pre_roll_ms / chunk_ms))]; after any sequence of pushes its
    snapshot is the whole sequence in order when that is at most the capacity
    long, and the most recent [capacity] frames in order when it is longer. *)
Theorem ring_snapshot_fifo (cfg : VoiceRuntimeConfig) (frames : list Frame) :
  chunk_ms cfg <> 0%Z ->
  let capacity :=
    Z.max 1 (Qfloor (of_int (pre_roll_ms cfg) / of_int (chunk_ms cfg))) in
  let ring := push_all (new_deque capacity) frames in
  pre_roll_frames cfg = Ok capacity
  /\ (Z.of_nat (List.length frames) <= capacity ->
      snapshot ring = frames)%Z
  /\ (capacity < Z.of_nat (List.length frames) ->
      snapshot ring = skipn (List.length frames - Z.to_nat capacity) frames
      /\ Z.of_nat (List.length (snapshot ring)) = capacity)%Z.
Proof.
  intros Hc capacity ring.
  assert (Hcap : (1 <= capacity)%Z) by (unfold capacity; lia).
  assert (E : snapshot ring
              = skipn (List.length frames - Z.to_nat capacity) frames)
    by (apply ring_holds_last; exact Hcap).
  split; [|split].
  - apply at_least_one_chunk_ok. exact Hc.
  - intros Short. rewrite E.
    replace (List.length frames - Z.to_nat capacity)%nat with 0%nat by lia.
    reflexivity.
  - intros Long. split; [exact E|]. rewrite E, length_skipn. lia.
Qed.

Lemma ring_snapshot_fifo_witness :
  snapshot (push_all (new_deque 3) [[1]; [2]; [3]; [4]; [5]]%Z)
  = [[3]; [4]; [5]]%Z.
Proof.
  refine (proj1 (proj2 (proj2 (ring_snapshot_fifo Samples.run_cfg
                          [[1]; [2]; [3]; [4]; [5]]%Z _)) _)).
  - discriminate.
  - reflexivity.
Defined.

End RingFacts.

(** ** The recorder *)

Module RecorderFacts.
Import WakeWord Service SizeFacts.

Section Loop.
Variable cfg : VoiceRuntimeConfig.
Variable np : Numpy.
Variables lo limit : Z.
Hypothesis limit_pos : (1 <= limit)%Z.

Local Abbreviation run := (record_loop cfg np lo limit).
Local Abbreviation noisy := (fun f : Frame => is_quiet cfg np f = false).
Local Abbreviation quiet := (fun f : Frame => is_quiet cfg np f = true).

Lemma arriving_app fs gs q :
  arriving (fs ++ gs) q = arriving fs (arriving gs q).
Proof. unfold arriving. now rewrite map_app, <- app_assoc. Qed.

(** Frames at or above the threshold keep the counter at zero and the loop
    going. *)
Lemma noisy_run fs n q frames :
  Forall noisy fs ->
  run (List.length fs + n)%nat (arriving fs q) frames 0%Z
  = run n q (frames ++ fs) 0%Z.
Proof.
  intros H. revert frames.
  induction H as [|f fs Hf _ IH]; intros frames; simpl.
  - now rewrite app_nil_r.
  - simpl in Hf. rewrite Hf.
    replace (limit <=? 0)%Z with false by (symmetry; apply Z.leb_gt; lia).
    rewrite andb_false_r. fold (arriving fs q).
    rewrite IH, <- app_assoc. reflexivity.
Qed.

(** A run of frames below the threshold that brings the counter to the
    limit, with the minimum length reached by then, ends the recording on
    its last frame. *)
Lemma quiet_run qs n q frames count :
  Forall quiet qs -> qs <> [] ->
  (count + Z.of_nat (List.length qs) = limit)%Z ->
  (lo <= Z.of_nat (List.length frames + List.length qs))%Z ->
  (List.length qs <= n)%nat ->
  run n (arriving qs q) frames count = (frames ++ qs, q).
Proof.
  intros H. revert n frames count.
  induction H as [|f qs Hf _ IH]; intros n frames count Hne Hc Hlo Hn;
    [congruence|].
  destruct n as [|n]; [simpl in Hn; lia|]. simpl.
  simpl in Hf. rewrite Hf, length_app. cbn [List.length] in *.
  destruct qs as [|g qs]; cbn [List.length] in *.
  - replace (limit <=? count + 1)%Z with true
      by (symmetry; apply Z.leb_le; lia).
    replace (lo <=? _)%Z with true by (symmetry; apply Z.leb_le; lia).
    reflexivity.
  - replace (limit <=? count + 1)%Z with false
      by (symmetry; apply Z.leb_gt; lia).
    rewrite andb_false_r. fold (arriving (g :: qs) q).
    rewrite IH; cbn [List.length] in *; try lia; try congruence.
    + now rewrite <- app_assoc.
    + rewrite length_app. cbn [List.length]. lia.
Qed.



End Loop.

Lemma at_least_one_chunk_pos num chunk v :
  at_least_one_chunk num chunk = Ok v -> (1 <= v)%Z.
Proof.
  unfold at_least_one_chunk. destruct (truediv _ _); [|discriminate].
  intros [= <-]. lia.
Qed.

Lemma is_quiet_false cfg np f :
  (silence_threshold cfg <= _rms np f)%Q -> is_quiet cfg np f = false.
Proof. intros H. now apply DetectFacts.Qltb_false. Qed.

Lemma is_quiet_true cfg np f :
  (_rms np f < silence_threshold cfg)%Q -> is_quiet cfg np f = true.
Proof. intros H. now apply DetectFacts.Qltb_true. Qed.

Lemma Forall_prefix {A : Type} (P : A -> Prop) (n : nat) (l : list A) :
  Forall P l -> Forall P (firstn n l).
Proof.
  intros H. revert n. induction H as [|a l Ha _ IH]; intros [|n]; simpl;
    constructor; auto.
Qed.

Lemma record_utterance_unfold cfg np q M m L :
  max_frames cfg = Ok M -> min_frames cfg = Ok m -> silence_limit cfg = Ok L ->
  _record_utterance cfg np q
  = Ok (record_loop cfg np m L (Z.to_nat M) q [] 0%Z).
Proof. unfold _record_utterance. now intros -> -> ->. Qed.



(** C2 refuted: minimum 2 frames, silence limit 2, maximum 10; the first
    [min_frames - 1 = 1] frame is loud, and the 2 frames right after the
    second frame are quiet, as is the second frame itself: the recorder
    returns 3 frames, not [min_frames + silence_frames = 4]. *)
Lemma record_early_silence :
  let cfg := Samples.run_cfg in
  let np := Some Samples.int_rms in
  max_frames cfg = Ok 10%Z /\ min_frames cfg = Ok 2%Z
  /\ silence_limit cfg = Ok 2%Z
  /\ is_quiet cfg np Samples.loud = false
  /\ is_quiet cfg np Samples.hush = true
  /\ _record_utterance cfg np
       (arriving ([Samples.loud] ++ Samples.hush
                  :: [Samples.hush; Samples.hush]) [])
     = Ok ([Samples.loud; Samples.hush; Samples.hush], [Some Samples.hush]).
Proof. vm_compute. repeat split. Qed.

(** C2, amended: the first [min_frames - 1] frames are at or above the
    silence threshold and the [silence_frames] frames right after frame
    number [min_frames] are below it, with [silence_frames] the configured
    limit and [min_frames + silence_frames <= max_frames].  When frame number
    [min_frames] is itself at or above the threshold the recorder returns
    exactly these [min_frames + silence_frames] frames; when it is below, the
    recorder returns one frame less, [min_frames + silence_frames - 1]. *)
Theorem record_stops_after_silence (cfg : VoiceRuntimeConfig) (np : Numpy)
    (lead : list Frame) (x : Frame) (tail : list Frame) (rest : Queue)
    (most least limit : Z) :
  max_frames cfg = Ok most -> min_frames cfg = Ok least ->
  silence_limit cfg = Ok limit ->
  (Z.of_nat (List.length lead) = least - 1)%Z ->
  Forall (fun f => (silence_threshold cfg <= _rms np f)%Q) lead ->
  Z.of_nat (List.length tail) = limit ->
  Forall (fun f => (_rms np f < silence_threshold cfg)%Q) tail ->
  (least + limit <= most)%Z ->
  let recorded := _record_utterance cfg np (arriving (lead ++ x :: tail) rest) in
  ((silence_threshold cfg <= _rms np x)%Q ->
     recorded = Ok (lead ++ x :: tail, rest)
     /\ Z.of_nat (List.length (lead ++ x :: tail)) = least + limit)%Z
  /\ ((_rms np x < silence_threshold cfg)%Q ->
      let kept := firstn (List.length tail - 1) tail in
      recorded
      = Ok (lead ++ x :: kept,
            arriving (skipn (List.length tail - 1) tail) rest)
      /\ Z.of_nat (List.length (lead ++ x :: kept)) = least + limit - 1)%Z.
Proof.
  intros EM Em EL Hlead Loud Htail Quiet Fits recorded.
  pose proof (at_least_one_chunk_pos _ _ _ EL) as Hlim.
  assert (Loud' : Forall (fun f => is_quiet cfg np f = false) lead)
    by (eapply Forall_impl; [|exact Loud]; intros f; apply is_quiet_false).
  assert (Quiet' : Forall (fun f => is_quiet cfg np f = true) tail)
    by (eapply Forall_impl; [|exact Quiet]; intros f; apply is_quiet_true).
  unfold recorded.
  rewrite (record_utterance_unfold cfg np _ most least limit EM Em EL).
  split.
  - intros Hx. split; [|rewrite length_app; cbn [List.length]; lia].
    replace (lead ++ x :: tail) with ((lead ++ [x]) ++ tail)
      by now rewrite <- app_assoc.
    rewrite arriving_app.
    replace (Z.to_nat most)
      with (List.length (lead ++ [x])
            + (Z.to_nat most - List.length (lead ++ [x])))%nat
      by (rewrite length_app; cbn [List.length]; lia).
    rewrite noisy_run; [|exact Hlim|].
    + rewrite quiet_run; trivial.
      * destruct tail; [simpl in Htail; lia | discriminate].
      * rewrite length_app. cbn [List.length app]. rewrite length_app.
        cbn [List.length]. lia.
      * rewrite length_app. cbn [List.length]. lia.
    + apply Forall_app. split; [exact Loud'|].
      constructor; [now apply is_quiet_false | constructor].
  - intros Hx. cbv zeta. set (kept := firstn (List.length tail - 1) tail).
    assert (Hk : List.length kept = (List.length tail - 1)%nat)
      by (unfold kept; rewrite length_firstn; lia).
    split; [|rewrite length_app; cbn [List.length]; lia].
    replace (lead ++ x :: tail)
      with (lead ++ (x :: kept) ++ skipn (List.length tail - 1) tail)
      by (unfold kept; cbn [app]; now rewrite firstn_skipn).
    rewrite !arriving_app.
    replace (Z.to_nat most)
      with (List.length lead + (Z.to_nat most - List.length lead))%nat by lia.
    rewrite noisy_run; [|exact Hlim|exact Loud'].
    rewrite quiet_run; trivial.
    + constructor; [now apply is_quiet_true|].
      unfold kept. now apply Forall_prefix.
    + discriminate.
    + cbn [List.length]. lia.
    + rewrite length_app. cbn [List.length app]. lia.
    + cbn [List.length]. lia.
Qed.

Lemma record_stops_after_silence_witness :
  _record_utterance Samples.run_cfg (Some Samples.int_rms)
    (arriving ([Samples.loud] ++ Samples.loud
               :: [Samples.hush; Samples.hush]) [Some Samples.hush])
  = Ok ([Samples.loud] ++ Samples.loud :: [Samples.hush; Samples.hush],
        [Some Samples.hush]).
Proof.
  refine (proj1 (proj1 (record_stops_after_silence Samples.run_cfg
                   (Some Samples.int_rms) [Samples.loud] Samples.loud
                   [Samples.hush; Samples.hush] [Some Samples.hush]
                   10 2 2 _ _ _ _ _ _ _ _) _)).
  - reflexivity.
  - reflexivity.
  - reflexivity.
  - reflexivity.
  - repeat constructor; vm_compute; discriminate.
  - reflexivity.
  - repeat constructor; vm_compute; reflexivity.
  - vm_compute. discriminate.
  - vm_compute. discriminate.
Defined.



End RecorderFacts.

(** ** The utterance handler *)

Module HandlerFacts.
Import WakeWord Service.

(** The service with the flag at [b] and [events] added to its trace. *)
Lemma service_eq (s : Service) b events events' :
  events = events' ->
  {| _running := _running s; _speaking := b; trace := events |}
  = {| _running := _running s; _speaking := b; trace := events' |}.
Proof. now intros ->. Qed.

Ltac run_handler :=
  unfold _handle_utterance, _play_wav, try_finally, try_except, call, bind,
    emit, set_speaking, ret; cbn [_running _speaking trace].

Ltac same_trace :=
  cbn [_running _speaking trace]; f_equal;
  apply service_eq; repeat rewrite <- app_assoc; reflexivity.



(** C9: on an empty transcription the handler returns normally having only
    asked for the transcription; on an empty or absent reply it returns
    normally having only asked for the transcription and the reply.  In both
    cases nothing is synthesized or played and the speaking flag is neither
    set nor cleared. *)
Theorem silent_turn (caps : Capabilities) (audio : Path) (s : Service)
    (text : string) (reply : option string) :
  transcribe caps audio = Ok text ->
  (is_empty text = false -> process_direct caps text = Ok reply
                            /\ no_response reply = true) ->
  _handle_utterance caps audio s
  = (Ok tt,
     {| _running := _running s; _speaking := _speaking s;
        trace := trace s
                 ++ (if is_empty text
                     then [Transcribe audio; Log "No transcription result"]
                     else [Transcribe audio; Log ("Transcribed: " ++ text);
                           AskAgent text]) |}).
Proof.
  intros Ht Hr. run_handler. rewrite Ht.
  destruct (is_empty text); cbn [_running _speaking trace].
  - same_trace.
  - destruct (Hr eq_refl) as [-> Hn].
    destruct reply as [r|]; cbn [no_response] in Hn; [rewrite Hn|];
      same_trace.
Qed.

Lemma silent_turn_witness :
  _handle_utterance (Samples.caps_with "" (Some "noon"%string))
    Samples.wav Samples.talking
  = (Ok tt,
     {| _running := true; _speaking := true;
        trace := [Transcribe Samples.wav;
                  Log "No transcription result"] |})
  /\ _handle_utterance (Samples.caps_with "sing" None)
       Samples.wav Samples.idle
     = (Ok tt,
        {| _running := true; _speaking := false;
           trace := [Transcribe Samples.wav; Log "Transcribed: sing";
                     AskAgent "sing"] |}).
Proof.
  split.
  - apply (silent_turn (Samples.caps_with "" (Some "noon"%string))
             Samples.wav Samples.talking ""%string (Some "noon"%string)).
    + reflexivity.
    + discriminate.
  - apply (silent_turn (Samples.caps_with "sing" None)
             Samples.wav Samples.idle "sing"%string None).
    + reflexivity.
    + intros _. split; reflexivity.
Defined.

End HandlerFacts.

(** ** The pipeline loop *)

Module LoopFacts.
Import WakeWord Service.

(** The loop variables after a pass that only takes one outcome off the
    queue. *)
Lemma loop_body_speaking cfg caps now l s :
  _speaking s = true ->
  loop_body cfg caps now l s
  = (Ok {| ring := ring l; detector := detector l; q := snd (q_get (q l)) |},
     s).
Proof.
  intros H. unfold loop_body.
  destruct (q_get (q l)) as [[frame|] q']; [rewrite H|]; reflexivity.
Qed.

Lemma run_loop_speaking cfg caps clock l s :
  _speaking s = true ->
  exists l', run_loop cfg caps clock l s = (Ok l', s)
             /\ ring l' = ring l /\ detector l' = detector l.
Proof.
  intros H. revert l. induction clock as [|now later IH]; intros l; simpl.
  - now exists l.
  - destruct (_running s); [|now exists l].
    unfold bind. rewrite (loop_body_speaking cfg caps now l s H).
    destruct (IH {| ring := ring l; detector := detector l;
                    q := snd (q_get (q l)) |}) as (l' & E & R & D).
    exists l'. now rewrite E.
Qed.

(** C1 refuted: with the speaking flag set and a frame waiting on the queue,
    one pass of the loop takes the frame off the queue and leaves the empty
    ring empty, where appending the frame would have left it holding that
    frame. *)
Lemma speaking_frame_not_buffered :
  loop_body Samples.run_cfg Samples.caps 100
    (Samples.fresh_loop [Some Samples.loud]) Samples.talking
  = (Ok (Samples.fresh_loop []), Samples.talking)
  /\ snapshot (ring (Samples.fresh_loop [])) = []
  /\ snapshot (deque_append (ring (Samples.fresh_loop [Some Samples.loud]))
                            Samples.loud) = [Samples.loud].
Proof. repeat split. Qed.

(** C1, amended: while the speaking flag is set, a pass of the pipeline loop
    takes the captured frame off the queue and discards it: the frame is not
    appended to the pre-roll ring, the gate is not evaluated (the detector is
    as before), no utterance is recorded or handled; and this holds pass
    after pass for as long as the loop runs with the flag set. *)
Theorem speaking_suppresses_frame (cfg : VoiceRuntimeConfig)
    (caps : Capabilities) (now : Q) (clock : list Q) (l : Loop) (s : Service) :
  _speaking s = true ->
  loop_body cfg caps now l s
  = (Ok {| ring := ring l; detector := detector l; q := snd (q_get (q l)) |},
     s)
  /\ exists l', run_loop cfg caps clock l s = (Ok l', s)
                /\ ring l' = ring l /\ detector l' = detector l.
Proof.
  intros H. split.
  - now apply loop_body_speaking.
  - now apply run_loop_speaking.
Qed.

Lemma speaking_suppresses_frame_witness :
  loop_body Samples.run_cfg Samples.caps 100
    (Samples.fresh_loop [Some Samples.loud; Some Samples.hush]) Samples.talking
  = (Ok (Samples.fresh_loop [Some Samples.hush]), Samples.talking).
Proof.
  exact (proj1 (speaking_suppresses_frame Samples.run_cfg Samples.caps 100 []
                  (Samples.fresh_loop [Some Samples.loud; Some Samples.hush])
                  Samples.talking eq_refl)).
Defined.

(** With the flag clear the same frame does reach the ring before the gate
    is asked. *)
Example idle_frame_buffered :
  exists after s',
    loop_body Samples.run_cfg Samples.caps 1
      (Samples.fresh_loop [Some Samples.loud]) Samples.idle = (Ok after, s')
    /\ snapshot (ring after) = [Samples.loud].
Proof. eexists. eexists. split; reflexivity. Qed.

End LoopFacts.

(** ** More on the wake-word gate *)

Module GateFacts.
Import PyStr WakeWord PyStrFacts NormalizeFacts DetectFacts Runs.
Local Open Scope Q_scope.





Lemma dict_get_key {V : Type} (d : list (string * V)) k :
  In k (dict_keys d) -> exists v, dict_get d k = Some v.
Proof.
  induction d as [|[k' v'] d IH]; simpl; [easy|].
  intros [->|H].
  - rewrite String.eqb_refl. eauto.
  - destruct (String.eqb k' k); eauto.
Qed.

Lemma matching_keys_incl cfg items k :
  In k (matching_keys cfg items) -> In k (dict_keys items).
Proof. unfold matching_keys. intros H. now apply filter_In in H. Qed.

Lemma target_key_known cfg (items : list (string * Q)) k :
  In k (_target_keywords cfg items) ->
  In k (dict_keys items) /\ dict_get items k = Some (score_of items k).
Proof.
  rewrite target_keywords_spec. intros Hk.
  assert (Hin : In k (dict_keys items)).
  { destruct (rev (matching_keys cfg items)) as [|k0 ks] eqn:E; [exact Hk|].
    destruct Hk as [<-|[]]. apply (matching_keys_incl cfg).
    apply in_rev. rewrite E. now left. }
  split; [exact Hin|]. unfold score_of.
  destruct (dict_get_key items k Hin) as [v ->]. reflexivity.
Qed.

(** The keywords [detect] goes through are keys of the prediction, so
    [predictions.get(key, 0.0)] never falls back on its default; there is at
    least one whenever the prediction is not empty, and exactly one whenever
    some key normalizes to the wake word. *)
Theorem target_keywords_are_keys (cfg : WakeWordConfig)
    (items : list (string * Q)) :
  (forall k, In k (_target_keywords cfg items) ->
     In k (dict_keys items)
     /\ dict_get items k = Some (score_of items k))
  /\ (items <> [] -> _target_keywords cfg items <> [])
  /\ (matching_keys cfg items <> [] ->
      List.length (_target_keywords cfg items) = 1%nat).
Proof.
  rewrite target_keywords_spec.
  assert (Sub : forall k, In k (rev (matching_keys cfg items)) ->
                          In k (dict_keys items))
    by (intros k H; apply in_rev in H; now apply matching_keys_incl in H).
  split; [|split].
  - intros k Hk.
    assert (Hin : In k (dict_keys items)).
    { destruct (rev (matching_keys cfg items)) as [|k0 ks]; [exact Hk|].
      destruct Hk as [<-|[]]. apply Sub. now left. }
    split; [exact Hin|]. unfold score_of.
    destruct (dict_get_key items k Hin) as [v ->]. reflexivity.
  - intros Hne. destruct (rev (matching_keys cfg items)); [|discriminate].
    destruct items; [congruence | discriminate].
  - intros Hne. destruct (rev (matching_keys cfg items)) eqn:E; [|reflexivity].
    apply (f_equal (@rev _)) in E. rewrite rev_involutive in E.
    simpl in E. congruence.
Qed.

Lemma first_hit_sound thr items keys k sc :
  first_hit thr items keys = Some (k, sc) ->
  In k keys /\ sc = score_of items k /\ thr <= sc.
Proof.
  induction keys as [|key keys IH]; simpl; [discriminate|].
  destruct (Qle_bool thr (score_of items key)) eqn:E.
  - intros [= <- <-]. apply Qle_bool_iff in E. auto.
  - intros H. destruct (IH H) as (H1 & H2 & H3). auto.
Qed.

(** [detect] answers true only on a mapping, with the cooldown elapsed, and
    for a keyword that the model predicted with a score at or above the
    threshold: that keyword and score are the ones logged. *)
Theorem detect_sound (d : WakeWordDetector) (p : Prediction) (now : Q) :
  fst (detect d p now) = true ->
  exists items k,
    p = Dict items
    /\ cooldown_s (config d) <= now - last_trigger d
    /\ In k (dict_keys items)
    /\ dict_get items k = Some (score_of items k)
    /\ threshold (config d) <= score_of items k
    /\ detect_logged d p now
       = (true, triggered d now, Some (k, score_of items k)).
Proof.
  unfold detect, detect_logged. destruct p as [|items]; [discriminate|].
  destruct (Qltb _ _) eqn:Cool; [discriminate|].
  destruct (first_hit _ _ _) as [[k sc]|] eqn:Hit; [|discriminate].
  intros _. apply first_hit_sound in Hit as (Hin & -> & Hthr).
  apply target_key_known in Hin as [Hin Hget].
  exists items, k. apply Qltb_false in Cool. repeat split; auto.
Qed.

Lemma detect_sound_witness :
  exists items k,
    Samples.one_model = Dict items
    /\ cooldown_s (config (new_detector Samples.wake_cfg))
       <= 100 - last_trigger (new_detector Samples.wake_cfg)
    /\ In k (dict_keys items)
    /\ dict_get items k = Some (score_of items k)
    /\ threshold (config (new_detector Samples.wake_cfg)) <= score_of items k
    /\ detect_logged (new_detector Samples.wake_cfg) Samples.one_model 100
       = (true, triggered (new_detector Samples.wake_cfg) 100,
          Some (k, score_of items k)).
Proof.
  apply (detect_sound (new_detector Samples.wake_cfg) Samples.one_model 100).
  reflexivity.
Defined.

Lemma detect_true_cooldown d p now :
  fst (detect d p now) = true ->
  cooldown_s (config d) <= now - last_trigger d.
Proof.
  unfold detect, detect_logged. destruct p as [|items]; [discriminate|].
  destruct (Qltb _ _) eqn:Cool; [discriminate|].
  intros _. now apply Qltb_false.
Qed.

Lemma last_cons_default {A : Type} (l : list A) (a d1 : A) :
  last (a :: l) d1 = last l a.
Proof.
  revert a d1. induction l as [|b l IH]; intros a d1; [reflexivity|].
  change (last (a :: b :: l) d1) with (last (b :: l) d1).
  rewrite IH. symmetry. apply IH.
Qed.

(** Over any run of calls on one detector, whatever the predictions and the
    clock readings: accepted triggers are at least [cooldown_s] apart (the
    first one at least that long after the initial timestamp), the
    configuration is never changed, and the timestamp at the end is the time
    of the last accepted trigger. *)
Theorem triggers_spaced (d : WakeWordDetector)
    (calls : list (Prediction * Q)) :
  let answers := fst (detect_all d calls) in
  let d' := snd (detect_all d calls) in
  List.length answers = List.length calls
  /\ spaced (cooldown_s (config d)) (last_trigger d) (accepted calls answers)
  /\ config d' = config d
  /\ last_trigger d' = last (accepted calls answers) (last_trigger d).
Proof.
  revert d. induction calls as [|[p t] calls IH]; intros d; simpl.
  - repeat split.
  - pose proof (detect_true_cooldown d p t) as Sound.
    destruct (detect_cases d p t) as [E|E]; rewrite E in *; simpl in *.
    + specialize (IH d). destruct (detect_all d calls) as [bs d2].
      simpl in *. destruct IH as (L & S & C & T). repeat split; auto.
    + pose proof (Sound eq_refl) as Cool.
      specialize (IH (triggered d t)).
      destruct (detect_all (triggered d t) calls) as [bs d2].
      simpl in *. destruct IH as (L & S & C & T). repeat split; auto.
      rewrite T. symmetry. apply last_cons_default.
Qed.

End GateFacts.

(** ** More on the ring and the derived sizes *)

Module SetupFacts.
Import WakeWord Service SizeFacts RingFacts.

Lemma ring_step {A : Type} (hist : list A) (x : A) (c : nat) :
  (1 <= c)%nat ->
  let l := skipn (List.length hist - c) hist ++ [x] in
  (if (Z.of_nat c <? Z.of_nat (List.length l))%Z then tl l else l)
  = skipn (List.length (hist ++ [x]) - c) (hist ++ [x]).
Proof.
  intros Hc l. unfold l. set (n := List.length hist).
  rewrite !length_app, length_skipn. fold n. cbn [List.length].
  destruct (Z.ltb_spec (Z.of_nat c) (Z.of_nat (n - (n - c) + 1))) as [F|R].
  - rewrite tl_skipn_snoc by (fold n; lia). f_equal. lia.
  - replace (n - c)%nat with 0%nat by lia.
    replace (n + 1 - c)%nat with 0%nat by lia. reflexivity.
Qed.

(** From any ring that respects its capacity: after further pushes the ring
    holds the last [maxlen] frames of its earlier content followed by the
    pushed frames, in order; so it never exceeds its capacity, its capacity
    never changes, and a frame just pushed is its last item. *)
Theorem ring_keeps_latest (d : Deque) (frames : list Frame) :
  (1 <= maxlen d)%Z ->
  (Z.of_nat (List.length (items d)) <= maxlen d)%Z ->
  let d' := push_all d frames in
  let history := items d ++ frames in
  maxlen d' = maxlen d
  /\ snapshot d'
     = skipn (List.length history - Z.to_nat (maxlen d)) history
  /\ (Z.of_nat (List.length (snapshot d')) <= maxlen d)%Z
  /\ (forall x, last (snapshot (deque_append d' x)) [] = x).
Proof.
  intros Hcap Hlen d' history.
  assert (E : items d'
              = skipn (List.length history - Z.to_nat (maxlen d)) history).
  { unfold d', history. clear d' history.
    induction frames as [|x frames IH] using rev_ind.
    - rewrite app_nil_r. simpl.
      replace (_ - _)%nat with 0%nat by lia. reflexivity.
    - rewrite push_all_snoc. unfold deque_append at 1. cbn [items].
      rewrite maxlen_push_all, IH, app_assoc.
      rewrite <- (Z2Nat.id (maxlen d)) at 1 by lia.
      apply ring_step. lia. }
  split; [apply maxlen_push_all|]. split; [exact E|]. split.
  - unfold snapshot. rewrite E, length_skipn. lia.
  - intros x. unfold snapshot, deque_append. cbn [items].
    fold d'. rewrite (maxlen_push_all d frames : maxlen d' = maxlen d).
    destruct (Z.ltb_spec (maxlen d)
                (Z.of_nat (List.length (items d' ++ [x])))) as [F|R].
    + destruct (items d') as [|y l]; [simpl in F; lia|]. simpl tl.
      apply last_last.
    + apply last_last.
Qed.

Lemma ring_keeps_latest_witness :
  snapshot (push_all {| maxlen := 2; items := [[1]; [2]]%Z |} [[3]]%Z)
  = [[2]; [3]]%Z.
Proof.
  refine (proj1 (proj2 (ring_keeps_latest
                          {| maxlen := 2; items := [[1]; [2]]%Z |}
                          [[3]]%Z _ _))).
  - discriminate.
  - discriminate.
Defined.

Lemma frame_samples_quot cfg :
  frame_samples cfg = Z.quot (sample_rate cfg * chunk_ms cfg) 1000.
Proof.
  unfold frame_samples, int_of_float, of_int. simpl.
  now rewrite Z.mul_1_r.
Qed.

(** The set-up never fails: with [sample_rate * chunk_ms] below 1000 (a
    zero or negative product included) there is no loop, and otherwise the
    loop starts on an empty ring of [max(1, floor(pre_roll_ms / chunk_ms))]
    places with a detector whose last trigger is 0; the division by
    [chunk_ms] is never reached with [chunk_ms = 0]. *)
Theorem listen_setup_total (cfg : VoiceRuntimeConfig) (wake : WakeWordConfig)
    (q0 : Queue) :
  listen_setup cfg wake q0
  = if (sample_rate cfg * chunk_ms cfg <? 1000)%Z then Ok None
    else Ok (Some {| ring := new_deque
                       (Z.max 1 (Qfloor (of_int (pre_roll_ms cfg)
                                         / of_int (chunk_ms cfg))));
                     detector := new_detector wake; q := q0 |}).
Proof.
  unfold listen_setup. rewrite frame_samples_quot.
  set (a := (sample_rate cfg * chunk_ms cfg)%Z).
  destruct (Z.ltb_spec a 1000) as [Small|Big].
  - replace (Z.quot a 1000 <=? 0)%Z with true; [reflexivity|].
    symmetry. apply Z.leb_le.
    destruct (Z.neg_nonneg_cases a) as [Neg|Pos].
    + replace a with (- - a)%Z by lia. rewrite Z.quot_opp_l by lia.
      pose proof (Z.quot_pos (- a) 1000). lia.
    + rewrite Z.quot_small; lia.
  - replace (Z.quot a 1000 <=? 0)%Z with false.
    + unfold pre_roll_frames. rewrite at_least_one_chunk_ok; [reflexivity|].
      unfold a in Big. intros E. rewrite E in Big. lia.
    + symmetry. apply Z.leb_gt.
      assert (1 <= Z.quot a 1000)%Z
        by (apply Z.quot_le_lower_bound; lia). lia.
Qed.



End SetupFacts.

(** ** More on the recorder *)

Module EndpointFacts.
Import WakeWord Service SizeFacts RecorderFacts.

Section Stop.
Variable cfg : VoiceRuntimeConfig.
Variable np : Numpy.
Variables lo limit : Z.

Local Abbreviation run := (record_loop cfg np lo limit).
Local Abbreviation quiet := (fun f : Frame => is_quiet cfg np f = true).
Local Abbreviation counted :=
  (fun (frames : list Frame) (c : Z) =>
     (0 <= c <= Z.of_nat (List.length frames))%Z
     /\ Forall quiet (firstn (Z.to_nat c) (rev frames))).

Lemma counted_next frames c f :
  counted frames c ->
  counted (frames ++ [f])
          (if is_quiet cfg np f then (c + 1)%Z else 0%Z).
Proof.
  cbv beta. intros [Hc Hq].
  rewrite length_app, rev_app_distr. cbn [List.length rev app].
  destruct (is_quiet cfg np f) eqn:E.
  - split; [lia|]. replace (Z.to_nat (c + 1)) with (S (Z.to_nat c)) by lia.
    cbn [firstn]. now constructor.
  - split; [lia|]. constructor.
Qed.

(** How the loop ends: it ran all its iterations, or it met the stop
    condition on its last frame, or a wait timed out. *)
Lemma record_loop_stop n q frames c :
  counted frames c ->
  exists taken,
    fst (run n q frames c) = frames ++ taken
    /\ (List.length taken <= n)%nat
    /\ ((List.length taken = n
         /\ q = arriving taken (snd (run n q frames c)))
        \/ (q = arriving taken (snd (run n q frames c))
            /\ (lo <= Z.of_nat (List.length (frames ++ taken)))%Z
            /\ (limit <= Z.of_nat (List.length (frames ++ taken)))%Z
            /\ Forall quiet (firstn (Z.to_nat limit) (rev (frames ++ taken))))
        \/ ((List.length taken < n)%nat
            /\ (q = arriving taken (None :: snd (run n q frames c))
                \/ (q = map Some taken /\ snd (run n q frames c) = [])))).
Proof.
  revert q frames c. induction n as [|n IH]; intros q frames c Inv.
  - exists []. rewrite app_nil_r. simpl. auto.
  - destruct q as [|[f|] q].
    + exists []. rewrite app_nil_r. simpl. split; [easy|]. split; [lia|].
      right. right. split; [lia|]. now right.
    + pose proof (counted_next frames c f Inv) as Inv'. cbv beta in Inv'.
      simpl.
      set (c' := if is_quiet cfg np f then (c + 1)%Z else 0%Z) in *.
      destruct ((lo <=? _)%Z && (limit <=? c')%Z) eqn:Stop.
      * exists [f]. simpl. split; [easy|]. split; [lia|]. right. left.
        apply andb_true_iff in Stop as [S1 S2].
        apply Z.leb_le in S1. apply Z.leb_le in S2.
        destruct Inv' as [Hc Hq]. repeat split; try lia.
        replace (Z.to_nat limit)
          with (Nat.min (Z.to_nat limit) (Z.to_nat c')) by lia.
        rewrite <- firstn_firstn. now apply Forall_prefix.
      * destruct (IH q (frames ++ [f]) c' Inv') as (taken & E & L & H).
        exists (f :: taken). rewrite <- app_assoc in E, H. cbn [app] in E, H.
        split; [exact E|]. split; [simpl; lia|].
        destruct H as [[H1 H2]|[(H1 & H2 & H3 & H4)|[H1 [H2|[H2 H3]]]]].
        -- left. split; [simpl; lia|]. unfold arriving in *. simpl.
           now rewrite <- H2.
        -- right. left. repeat split; auto.
           unfold arriving in *. simpl. now rewrite <- H1.
        -- right. right. split; [simpl; lia|]. left.
           unfold arriving in *. simpl. now rewrite <- H2.
        -- right. right. split; [simpl; lia|]. right.
           split; [simpl; now rewrite <- H2 | exact H3].
    + exists []. rewrite app_nil_r. simpl. split; [easy|]. split; [lia|].
      right. right. split; [lia|]. now left.
Qed.

(** While the minimum length is still to be reached no frame ends the
    recording, loud or quiet. *)
Lemma short_run fs q frames c :
  (Z.of_nat (List.length frames + List.length fs) <= lo)%Z ->
  run (List.length fs) (arriving fs q) frames c = (frames ++ fs, q).
Proof.
  revert frames c. induction fs as [|f fs IH]; intros frames c H; simpl.
  - now rewrite app_nil_r.
  - fold (arriving fs q). cbn [List.length] in H.
    destruct ((lo <=? _)%Z && _) eqn:Stop.
    + apply andb_true_iff in Stop as [S1 _]. apply Z.leb_le in S1.
      rewrite length_app in S1. cbn [List.length] in S1.
      destruct fs; [reflexivity | cbn [List.length] in H; lia].
    + rewrite IH, <- app_assoc; [reflexivity|].
      rewrite length_app. cbn [List.length]. lia.
Qed.
End Stop.

Lemma record_utterance_inv cfg np q0 frames q' :
  _record_utterance cfg np q0 = Ok (frames, q') ->
  exists most least limit,
    max_frames cfg = Ok most /\ min_frames cfg = Ok least
    /\ silence_limit cfg = Ok limit
    /\ record_loop cfg np least limit (Z.to_nat most) q0 [] 0%Z
       = (frames, q').
Proof.
  unfold _record_utterance.
  destruct (max_frames cfg) as [most|]; [|discriminate].
  destruct (min_frames cfg) as [least|]; [|discriminate].
  destruct (silence_limit cfg) as [limit|]; [|discriminate].
  intros [= E]. now exists most, least, limit.
Qed.

Lemma start_counted cfg np :
  (0 <= 0 <= Z.of_nat (@List.length Frame []))%Z
  /\ Forall (fun f : Frame => is_quiet cfg np f = true)
            (firstn (Z.to_nat 0) (rev [])).
Proof. split; [simpl; lia | constructor]. Qed.

(** The recorder returns the frames in the order they arrive, skipping none,
    and leaves on the queue everything that comes after them, less the one
    wait that timed out if one did. *)
Theorem recorded_in_arrival_order (cfg : VoiceRuntimeConfig) (np : Numpy)
    (q0 : Queue) (frames : list Frame) (q' : Queue) :
  _record_utterance cfg np q0 = Ok (frames, q') ->
  exists stall,
    q0 = arriving frames (stall ++ q') /\ (stall = [] \/ stall = [None]).
Proof.
  intros H. apply record_utterance_inv in H as (most & least & limit & _ & _ & _ & E).
  destruct (record_loop_stop cfg np least limit (Z.to_nat most) q0 [] 0%Z
              (start_counted cfg np)) as (taken & Ef & _ & Hq).
  rewrite E in Ef, Hq. cbn [fst snd app] in Ef, Hq. subst taken.
  destruct Hq as [[_ Hq]|[[Hq _]|[_ [Hq|[Hq ->]]]]].
  - exists []. auto.
  - exists []. auto.
  - exists [None]. auto.
  - exists []. split; [|auto]. unfold arriving. now rewrite app_nil_r.
Qed.

Lemma recorded_in_arrival_order_witness :
  exists stall,
    [Some Samples.loud; None; Some Samples.hush]
    = arriving [Samples.loud] (stall ++ [Some Samples.hush])
    /\ (stall = [] \/ stall = [None]).
Proof.
  apply (recorded_in_arrival_order Samples.run_cfg (Some Samples.int_rms)
           [Some Samples.loud; None; Some Samples.hush]).
  reflexivity.
Defined.

Lemma skipn_arriving taken rest :
  skipn (List.length taken) (arriving taken rest) = rest.
Proof.
  unfold arriving. rewrite <- (length_map Some taken).
  rewrite skipn_app, Nat.sub_diag, skipn_all. reflexivity.
Qed.

(** When the recorder returns fewer than [max_frames] frames, either at least
    [min_frames] frames were recorded and the last [silence_limit] of them
    are all below the silence threshold, or the wait for the next frame
    timed out. *)
Theorem early_stop_reason (cfg : VoiceRuntimeConfig) (np : Numpy)
    (q0 : Queue) (frames : list Frame) (q' : Queue) (most least limit : Z) :
  _record_utterance cfg np q0 = Ok (frames, q') ->
  max_frames cfg = Ok most -> min_frames cfg = Ok least ->
  silence_limit cfg = Ok limit ->
  (Z.of_nat (List.length frames) < most)%Z ->
  ((least <= Z.of_nat (List.length frames))%Z
   /\ (limit <= Z.of_nat (List.length frames))%Z
   /\ Forall (fun f => (_rms np f < silence_threshold cfg)%Q)
             (firstn (Z.to_nat limit) (rev frames)))
  \/ fst (q_get (skipn (List.length frames) q0)) = None.
Proof.
  intros H EM Em EL Short.
  apply record_utterance_inv in H as (M & m & L & EM' & Em' & EL' & E).
  rewrite EM in EM'. rewrite Em in Em'. rewrite EL in EL'.
  injection EM' as <-. injection Em' as <-. injection EL' as <-.
  destruct (record_loop_stop cfg np least limit (Z.to_nat most) q0 [] 0%Z
              (start_counted cfg np)) as (taken & Ef & _ & Hq).
  rewrite E in Ef, Hq. cbn [fst snd app] in Ef, Hq. subst taken.
  destruct Hq as [[Hn _]|[(_ & H1 & H2 & H3)|[_ [Hq|[Hq _]]]]].
  - lia.
  - left. repeat split; auto. eapply Forall_impl; [|exact H3].
    intros f Hf. now apply DetectFacts.Qltb_true.
  - right. rewrite Hq, skipn_arriving. reflexivity.
  - right. rewrite Hq. rewrite <- (length_map Some frames), skipn_all.
    reflexivity.
Qed.

Lemma early_stop_reason_witness :
  ((2 <= Z.of_nat (List.length [Samples.loud; Samples.hush; Samples.hush]))%Z
   /\ (2 <= Z.of_nat (List.length [Samples.loud; Samples.hush; Samples.hush]))%Z
   /\ Forall (fun f => (_rms (Some Samples.int_rms) f
                        < silence_threshold Samples.run_cfg)%Q)
             (firstn (Z.to_nat 2)
                     (rev [Samples.loud; Samples.hush; Samples.hush])))
  \/ fst (q_get (skipn (List.length [Samples.loud; Samples.hush; Samples.hush])
                       (arriving [Samples.loud; Samples.hush; Samples.hush;
                                  Samples.loud] []))) = None.
Proof.
  apply (early_stop_reason Samples.run_cfg (Some Samples.int_rms)
           (arriving [Samples.loud; Samples.hush; Samples.hush; Samples.loud] [])
           [Samples.loud; Samples.hush; Samples.hush] [Some Samples.loud]
           10 2 2); reflexivity.
Defined.

(** When the minimum frame count is not below the maximum, silence never
    ends a recording: if [max_frames] frames arrive, the recorder returns
    exactly those, loud or quiet. *)
Theorem min_at_least_max_records_all (cfg : VoiceRuntimeConfig) (np : Numpy)
    (frames : list Frame) (rest : Queue) (most least limit : Z) :
  max_frames cfg = Ok most -> min_frames cfg = Ok least ->
  silence_limit cfg = Ok limit ->
  (most <= least)%Z ->
  Z.of_nat (List.length frames) = most ->
  _record_utterance cfg np (arriving frames rest) = Ok (frames, rest).
Proof.
  intros EM Em EL Hle Hlen.
  rewrite (record_utterance_unfold cfg np _ most least limit EM Em EL).
  replace (Z.to_nat most) with (List.length frames) by lia.
  rewrite short_run; [reflexivity|]. simpl. lia.
Qed.

Lemma min_at_least_max_records_all_witness :
  _record_utterance Samples.zero_cfg (Some Samples.int_rms)
    (arriving [Samples.hush] [Some Samples.hush])
  = Ok ([Samples.hush], [Some Samples.hush]).
Proof.
  apply (min_at_least_max_records_all Samples.zero_cfg (Some Samples.int_rms)
           [Samples.hush] [Some Samples.hush] 1 1 1); reflexivity.
Defined.

Lemma record_raise_zero cfg np q0 e :
  _record_utterance cfg np q0 = Raise e ->
  e = ZeroDivisionError /\ chunk_ms cfg = 0%Z.
Proof.
  destruct (Z.eq_dec (chunk_ms cfg) 0) as [E|N].
  - unfold _record_utterance, max_frames, at_least_one_chunk, truediv.
    rewrite E. simpl. now intros [= <-].
  - unfold _record_utterance, max_frames, min_frames, silence_limit.
    rewrite !at_least_one_chunk_ok by exact N. discriminate.
Qed.


End EndpointFacts.

(** ** What the handler and the loop keep *)

Module KeepFacts.
Import WakeWord Service SizeFacts HandlerFacts.

Ltac split_cases :=
  repeat (cbn [_running _speaking trace fst snd negb];
          match goal with
          | |- context [match ?x with _ => _ end] =>
              lazymatch x with
              | context [match _ with _ => _ end] => fail
              | _ => destruct x eqn:?
              end
          end);
  cbn [_running _speaking trace fst snd negb].

Ltac grown :=
  match goal with
  | |- exists events, ?t = trace ?s ++ events =>
      repeat rewrite <- app_assoc; eexists; reflexivity
  end.

Lemma handler_keeps caps audio s r s' :
  _handle_utterance caps audio s = (r, s') ->
  _running s' = _running s
  /\ (exists events, trace s' = trace s ++ events)
  /\ (_speaking s' = false \/ _speaking s' = _speaking s).
Proof.
  run_handler. split_cases; intros [= <- <-];
    cbn [_running _speaking trace]; (split; [reflexivity|]);
    (split; [grown | auto]).
Qed.

(** Whatever the collaborators do, the handler never changes the running
    flag, only adds to the record of what was done, and never returns or
    raises with the speaking flag set unless it was set when it began (then
    it leaves it as it was, or clear). *)
Theorem handler_keeps_flags (caps : Capabilities) (audio : Path)
    (s : Service) :
  let s' := snd (_handle_utterance caps audio s) in
  _running s' = _running s
  /\ (exists events, trace s' = trace s ++ events)
  /\ (_speaking s' = false \/ _speaking s' = _speaking s).
Proof.
  run_handler. split_cases; (split; [reflexivity|]);
    (split; [grown | auto]).
Qed.



Section Pass.
Variable cfg : VoiceRuntimeConfig.
Variable caps : Capabilities.
Variable l : Loop.
Variable s : Service.

Local Abbreviation kept :=
  (fun (run was : bool) (r : Result Loop * Service) =>
     _running (snd r) = run
     /\ (_speaking (snd r) = false \/ _speaking (snd r) = was)
     /\ (exists events, trace (snd r) = trace s ++ events)
     /\ (forall l', fst r = Ok l' ->
           config (detector l') = config (detector l)
           /\ maxlen (ring l') = maxlen (ring l))
     /\ (forall e, fst r = Raise e ->
           (e = ZeroDivisionError /\ chunk_ms cfg = 0%Z)
           \/ is_Exception e = false)).

Lemma kept_ok run was l' s' :
  _running s' = run ->
  (_speaking s' = false \/ _speaking s' = was) ->
  (exists events, trace s' = trace s ++ events) ->
  config (detector l') = config (detector l) ->
  maxlen (ring l') = maxlen (ring l) ->
  kept run was (Ok l', s').
Proof.
  intros H1 H2 H3 H4 H5. cbn [fst snd].
  split; [|split; [|split; [|split]]]; auto.
  - intros ? [= <-]. auto.
  - discriminate.
Qed.

Lemma kept_raise run was e s' :
  _running s' = run ->
  (_speaking s' = false \/ _speaking s' = was) ->
  (exists events, trace s' = trace s ++ events) ->
  ((e = ZeroDivisionError /\ chunk_ms cfg = 0%Z) \/ is_Exception e = false) ->
  kept run was (Raise e, s').
Proof.
  intros H1 H2 H3 H4. cbn [fst snd].
  split; [|split; [|split; [|split]]]; auto.
  - discriminate.
  - intros ? [= <-]. exact H4.
Qed.

Lemma trace_same : exists events, trace s = trace s ++ events.
Proof. exists []. now rewrite app_nil_r. Qed.

(** What one pass keeps, with any failure it can end in. *)
Lemma loop_body_keeps now :
  kept (_running s) (_speaking s) (loop_body cfg caps now l s).
Proof.
  pose proof trace_same as Same. unfold loop_body.
  destruct (q_get (q l)) as [[frame|] q']; [|apply kept_ok; auto].
  pose proof (fun audio r s' => handler_keeps caps audio s r s') as Keeps.
  destruct (_speaking s) eqn:Sp; [apply kept_ok; auto|].
  assert (Det : config (snd (detect (detector l) (predict caps frame) now))
                = config (detector l))
    by (destruct (DetectFacts.detect_cases (detector l) (predict caps frame)
                    now) as [->| ->]; reflexivity).
  destruct (detect (detector l) (predict caps frame) now) as [hit det'].
  cbn [snd] in Det.
  destruct hit; [|apply kept_ok; auto].
  pose proof (EndpointFacts.record_raise_zero cfg (numpy caps) q') as Rec.
  destruct (_record_utterance cfg (numpy caps) q') as [[recorded q'']|e0];
    [|apply kept_raise; auto].
  destruct (_write_wav caps _) as [audio|]; [|apply kept_ok; auto].
  destruct (has_loop caps); [|apply kept_ok; auto].
  unfold bind, try_except, emit, ret.
  specialize (Keeps audio).
  destruct (_handle_utterance caps audio s) as [[[]|e] s1];
    destruct (Keeps _ _ eq_refl) as (K1 & (ev & K2) & K3).
  - apply kept_ok; eauto.
  - destruct (is_Exception e) eqn:Ex.
    + apply kept_ok; cbn [_running _speaking trace ring detector]; auto.
      exists (ev ++ [Log "Voice handler error"]). now rewrite K2, app_assoc.
    + apply kept_raise; eauto.
Qed.
End Pass.

Lemma run_loop_keeps cfg caps clock l s run was :
  _running s = run -> _speaking s = was ->
  let r := run_loop cfg caps clock l s in
  _running (snd r) = run
  /\ (_speaking (snd r) = false \/ _speaking (snd r) = was)
  /\ (exists events, trace (snd r) = trace s ++ events)
  /\ (forall l', fst r = Ok l' ->
        config (detector l') = config (detector l)
        /\ maxlen (ring l') = maxlen (ring l))
  /\ (forall e, fst r = Raise e ->
        (e = ZeroDivisionError /\ chunk_ms cfg = 0%Z)
        \/ is_Exception e = false).
Proof.
  revert l s run was.
  induction clock as [|now later IH]; intros l s run was Hrun Hwas.
  - apply kept_ok; auto. apply trace_same.
  - cbn [run_loop]. rewrite Hrun. destruct run.
    + unfold bind.
      pose proof (loop_body_keeps cfg caps l s now) as (B1 & B2 & B3 & B4 & B5).
      rewrite Hrun, Hwas in *.
      destruct (loop_body cfg caps now l s) as [[l1|e] s1];
        cbn [fst snd] in B1, B2, B3, B4, B5.
      * destruct (B4 l1 eq_refl) as [C1 C2]. destruct B3 as [ev1 B3].
        destruct B2 as [B2|B2].
        -- destruct (IH l1 s1 _ _ B1 B2) as (I1 & I2 & (ev2 & I3) & I4 & I5).
           split; [exact I1|]. split; [|split; [|split]].
           ++ destruct I2 as [I2|I2]; now left.
           ++ exists (ev1 ++ ev2). now rewrite I3, B3, app_assoc.
           ++ intros l' E. destruct (I4 l' E). split; congruence.
           ++ exact I5.
        -- destruct (IH l1 s1 _ _ B1 B2) as (I1 & I2 & (ev2 & I3) & I4 & I5).
           split; [exact I1|]. split; [exact I2|]. split; [|split].
           ++ exists (ev1 ++ ev2). now rewrite I3, B3, app_assoc.
           ++ intros l' E. destruct (I4 l' E). split; congruence.
           ++ exact I5.
      * apply kept_raise; auto.
    + apply kept_ok; auto. apply trace_same.
Qed.

(** However many passes the loop makes and whatever the collaborators do, it
    never changes the running flag, it ends with the speaking flag clear or
    as it found it (so clear, when it started clear), and it leaves the
    detector's configuration and the ring's capacity as they were. *)
Theorem loop_keeps_state (cfg : VoiceRuntimeConfig) (caps : Capabilities)
    (clock : list Q) (l : Loop) (s : Service) :
  let r := run_loop cfg caps clock l s in
  _running (snd r) = _running s
  /\ (_speaking (snd r) = false \/ _speaking (snd r) = _speaking s)
  /\ (forall l', fst r = Ok l' ->
        config (detector l') = config (detector l)
        /\ maxlen (ring l') = maxlen (ring l)).
Proof.
  destruct (run_loop_keeps cfg caps clock l s _ _ eq_refl eq_refl)
    as (H1 & H2 & _ & H4 & _).
  auto.
Qed.


End KeepFacts.

(** ** The audio client *)

Module ClientFacts.
Import PyStr WakeWord Service AudioClient PyStrFacts NormalizeFacts HandlerFacts.

Lemma drop_leading_split ch l :
  exists n, l = repeat ch n ++ drop_leading ch l
            /\ match drop_leading ch l with
               | c :: _ => c <> ch
               | [] => True
               end.
Proof.
  induction l as [|c l (n & E & H)]; simpl.
  - now exists 0%nat.
  - destruct (Ascii.eqb_spec c ch) as [->|N].
    + exists (S n). simpl. split; [now f_equal | exact H].
    + now exists 0%nat.
Qed.

Lemma rev_repeat {A : Type} (a : A) n : rev (repeat a n) = repeat a n.
Proof.
  induction n as [|n IH]; [reflexivity|]. simpl. rewrite IH.
  clear IH. induction n as [|n IH]; [reflexivity|]. simpl. now rewrite IH.
Qed.

(** The base URL a client keeps is the one given less its trailing slashes,
    all of them: what was cut is slashes only, and what is kept does not end
    in a slash. *)
Theorem api_base_has_no_trailing_slash
    (key base tm sm voice : string) (speed : Q) (fmt : string) :
  let c := new_client key base tm sm voice speed fmt in
  exists n,
    chars base = chars (api_base c) ++ repeat slash n
    /\ last (chars (api_base c)) " "%char <> slash.
Proof.
  intros c. unfold c, new_client, rstrip_slashes, chars. cbn [api_base].
  rewrite list_ascii_of_string_of_list_ascii.
  destruct (drop_leading_split slash (rev (list_ascii_of_string base)))
    as (n & E & H).
  exists n. split.
  - rewrite <- (rev_involutive (list_ascii_of_string base)), E at 1.
    now rewrite rev_app_distr, rev_repeat.
  - destruct (drop_leading slash (rev (list_ascii_of_string base)))
      as [|x l]; [discriminate|].
    simpl rev. now rewrite last_last.
Qed.

Lemma chars_strip_str t : chars (strip_str t) = strip (chars t).
Proof. unfold strip_str, chars. apply list_ascii_of_string_of_list_ascii. Qed.

(** [transcribe] returns a text without white space at either end, and
    raises only what is not an [Exception]: it returns the empty text,
    without a request, when the file is missing, and the empty text when
    the request fails with an [Exception]. *)
Theorem transcribe_outcome (c : OpenAIAudioClient) (net : Network)
    (file_path : Path) (language : option string) :
  match fst (transcribe c net file_path language) with
  | Ok text => is_trimmed text = true
  | Raise e => is_Exception e = false
  end
  /\ (exists_file net file_path = false ->
      transcribe c net file_path language
      = (Ok ""%string, [LoggedError "Audio file not found"]))
  /\ (forall e, is_Exception e = true ->
        post_transcription net (transcription_request c file_path language)
        = Raise e ->
        fst (transcribe c net file_path language) = Ok ""%string).
Proof.
  unfold transcribe. split; [|split].
  - destruct (exists_file net file_path); cbn [negb fst]; [|reflexivity].
    destruct (post_transcription net _) as [field|e]; cbn [fst].
    + unfold is_trimmed. rewrite chars_strip_str.
      now destruct (strip_split (chars match field with
                                       | Some t => t
                                       | None => ""%string
                                       end)) as (_ & _ & _ & _ & _ & T).
    + destruct (is_Exception e) eqn:Ex; [reflexivity | exact Ex].
  - now intros ->.
  - intros e Ex Post. destruct (exists_file net file_path); [|reflexivity].
    cbn [negb]. now rewrite Post, Ex.
Qed.


Lemma transcribe_outcome_witness :
  transcribe MoreSamples.client MoreSamples.no_file_net Samples.wav None
  = (Ok ""%string, [LoggedError "Audio file not found"]).
Proof.
  exact (proj1 (proj2 (transcribe_outcome MoreSamples.client
                         MoreSamples.no_file_net Samples.wav None)) eq_refl).
Defined.

Lemma strip_blank_chars l : blank l = true -> strip l = [].
Proof.
  intros B. unfold strip, rstrip. now rewrite (lstrip_all_blank l B).
Qed.

(** The text [transcribe] returns in each of the ways a transcription can
    come to nothing. *)
Lemma transcribe_nothing c net audio language :
  exists_file net audio = false
  \/ (exists e, is_Exception e = true
                /\ post_transcription net
                     (transcription_request c audio language) = Raise e)
  \/ (exists field,
        post_transcription net (transcription_request c audio language)
        = Ok field
        /\ is_blank (match field with Some t => t | None => ""%string end)
           = true) ->
  fst (transcribe c net audio language) = Ok ""%string.
Proof.
  unfold transcribe.
  intros [Missing|[(e & Ex & Post)|(field & Post & Blank)]].
  - now rewrite Missing.
  - destruct (exists_file net audio); [|reflexivity]. cbn [negb].
    now rewrite Post, Ex.
  - destruct (exists_file net audio); [|reflexivity]. cbn [negb].
    rewrite Post. cbn [fst]. unfold strip_str. fold (chars match field with
                                                           | Some t => t
                                                           | None => ""%string
                                                           end).
    now rewrite strip_blank_chars.
Qed.

(** With transcription done by the client, the turn ends silently (the
    handler returns normally having only asked for the transcription, the
    agent is not asked, nothing is synthesized or played, the speaking flag
    is not touched) whenever the recording is missing, the transcription
    request fails with an [Exception], or the text that comes back is empty
    or white space only. *)
Theorem blank_transcription_ends_turn (c : OpenAIAudioClient) (net : Network)
    (language : option string) (caps : Capabilities) (audio : Path)
    (s : Service) :
  exists_file net audio = false
  \/ (exists e, is_Exception e = true
                /\ post_transcription net
                     (transcription_request c audio (or_none language))
                   = Raise e)
  \/ (exists field,
        post_transcription net
          (transcription_request c audio (or_none language)) = Ok field
        /\ is_blank (match field with Some t => t | None => ""%string end)
           = true) ->
  _handle_utterance (with_client c net language caps) audio s
  = (Ok tt,
     {| _running := _running s; _speaking := _speaking s;
        trace := trace s
                 ++ [Transcribe audio; Log "No transcription result"] |}).
Proof.
  intros H. apply transcribe_nothing in H.
  run_handler. cbn [with_client Service.transcribe]. rewrite H.
  cbn [is_empty]. same_trace.
Qed.

Lemma blank_transcription_ends_turn_witness :
  _handle_utterance
    (with_client MoreSamples.client MoreSamples.blank_net (Some ""%string)
                 Samples.caps) Samples.wav Samples.idle
  = (Ok tt,
     {| _running := true; _speaking := false;
        trace := [Transcribe Samples.wav; Log "No transcription result"] |}).
Proof.
  apply (blank_transcription_ends_turn MoreSamples.client MoreSamples.blank_net
           (Some ""%string) Samples.caps Samples.wav Samples.idle).
  right. right. exists (Some "  "%string). split; reflexivity.
Defined.



End ClientFacts.

(** ** Construction, start and stop *)

Module LifecycleFacts.
Import WakeWord Service Lifecycle SizeFacts SetupFacts KeepFacts.

(** The text of an optional string, empty when there is none. *)
Lemma or_else_given a b :
  or_else a b = if no_response a then b else a.
Proof. destruct a as [x|]; [|reflexivity]. simpl. now destruct (is_empty x). Qed.

(** The API key is the first of the voice setting, the provider setting and
    the environment variable that is present and not empty; construction
    fails with the missing-key error exactly when none of the three is. *)
Theorem api_key_precedence (voice_key provider_key env_key : option string) :
  resolve_api_key voice_key provider_key env_key
  = match (if no_response voice_key
           then if no_response provider_key
                then if no_response env_key then None else env_key
                else provider_key
           else voice_key) with
    | Some k => Ok k
    | None => Raise key_missing
    end.
Proof.
  unfold resolve_api_key. rewrite !or_else_given.
  destruct voice_key as [a|], provider_key as [b|], env_key as [c|];
    cbn [no_response];
    repeat match goal with
           | |- context [is_empty ?x] => destruct (is_empty x) eqn:?
           end;
    cbn [no_response]; try reflexivity; try congruence;
    repeat match goal with
           | H : is_empty ?x = _ |- context [is_empty ?x] => rewrite H
           end; reflexivity.
Qed.

Lemma listen_setup_returns cfg wake q0 :
  listen_setup cfg wake q0 = Ok None
  \/ exists l, listen_setup cfg wake q0 = Ok (Some l).
Proof.
  unfold listen_setup.
  destruct (Z.leb_spec (frame_samples cfg) 0) as [Bad|Good]; [now left|].
  apply frame_samples_chunk in Good. unfold pre_roll_frames.
  rewrite at_least_one_chunk_ok by exact Good. right. eauto.
Qed.

Lemma run_blocking_keeps cfg wake caps host clock q0 s :
  let r := _run_blocking cfg wake caps host clock q0 s in
  _running (snd r) = _running s
  /\ (_speaking (snd r) = false \/ _speaking (snd r) = _speaking s)
  /\ (exists events, trace (snd r) = trace s ++ events)
  /\ (forall e, fst r = Raise e ->
        (audio_imports host = false /\ e = deps_missing)
        \/ model_load host = LoadFailed e
        \/ is_Exception e = false).
Proof.
  assert (Same : exists events, trace s = trace s ++ events)
    by (exists []; now rewrite app_nil_r).
  assert (One : forall m, exists events,
              trace s ++ [Log m] = trace s ++ events) by eauto.
  unfold _run_blocking, _import_deps, bind, raise, ret, emit.
  destruct (audio_imports host);
    [|cbn; repeat split; auto; intros ? [= <-]; auto].
  destruct (model_load host) as [| |e0];
    [| cbn; repeat split; auto; discriminate
     | cbn; repeat split; auto; intros ? [= <-]; auto].
  destruct (listen_setup_returns cfg wake q0) as [->|[l ->]];
    [cbn; repeat split; auto; discriminate|].
  unfold try_except, raise, bind, emit, ret.
  destruct (open_stream host) as [[]|e0].
  - cbn [_running _speaking trace].
    set (s0 := {| _running := _running s; _speaking := _speaking s;
                  trace := trace s ++ [Log "Listening for wake word..."] |}).
    destruct (run_loop_keeps cfg caps clock l s0 _ _ eq_refl eq_refl)
      as (K1 & K2 & (ev & K3) & _ & K5).
    destruct (run_loop cfg caps clock l s0) as [[l'|e] s1];
      cbn [fst snd] in K1, K2, K3, K5; cbn [_running _speaking] in K1, K2;
      cbn [trace s0] in K3.
    + cbn. repeat split; auto; [|discriminate].
      exists ([Log "Listening for wake word..."] ++ ev).
      now rewrite K3, <- app_assoc.
    + destruct (is_Exception e) eqn:Ex; cbn.
      * repeat split; auto; [|discriminate].
        exists ([Log "Listening for wake word..."] ++ ev
                ++ [Log "Audio stream error"]).
        rewrite K3. now rewrite <- !app_assoc.
      * repeat split; auto.
        -- exists ([Log "Listening for wake word..."] ++ ev).
           now rewrite K3, <- app_assoc.
        -- intros ? [= <-]. auto.
  - destruct (is_Exception e0) eqn:Ex; cbn.
    + repeat split; auto. discriminate.
    + repeat split; auto. intros ? [= <-]. auto.
Qed.


(** [start] on a service that is already running does nothing; otherwise,
    however the run ends (returning or raising), the service is left not
    running, the speaking flag is left clear or as it was, and the record
    shows the start first and the stop last. *)
Theorem start_ends_stopped (cfg : VoiceRuntimeConfig) (wake : WakeWordConfig)
    (caps : Capabilities) (host : Host) (clock : list Q) (q0 : Queue)
    (s : Service) :
  let r := start cfg wake caps host clock q0 s in
  (_running s = true -> r = (Ok tt, s))
  /\ (_running s = false ->
      _running (snd r) = false
      /\ (_speaking (snd r) = false \/ _speaking (snd r) = _speaking s)
      /\ exists events,
           trace (snd r)
           = trace s ++ [Log "Voice assistant started"] ++ events
             ++ [Log "Voice assistant stopped"]).
Proof.
  cbv zeta. unfold start. split; intros Run; rewrite Run; [reflexivity|].
  unfold bind, set_running, emit, try_finally.
  cbn [_running _speaking trace].
  set (s0 := {| _running := true; _speaking := _speaking s;
                trace := trace s ++ [Log "Voice assistant started"] |}).
  destruct (run_blocking_keeps cfg wake (loop_set caps) host clock q0 s0)
    as (K1 & K2 & (ev & K3) & _).
  destruct (_run_blocking cfg wake (loop_set caps) host clock q0 s0)
    as [r s1].
  cbn [fst snd] in K1, K2, K3. cbn [s0 _speaking trace] in K2, K3.
  cbn [fst snd _running _speaking trace].
  split; [reflexivity|]. split; [exact K2|].
  exists ev. rewrite K3. now rewrite <- !app_assoc.
Qed.

End LifecycleFacts.

(** ** Recording silence *)

Module QuietFacts.
Import WakeWord Service SizeFacts RecorderFacts.

(** Among frames that are all below the threshold the loop stops on the
    first one that brings both the length to the minimum and the counter to
    the limit. *)
Lemma all_quiet_run cfg np lo limit qs n rest frames count :
  Forall (fun f => is_quiet cfg np f = true) qs -> qs <> [] ->
  (Z.max (lo - Z.of_nat (List.length frames)) (limit - count)
   = Z.of_nat (List.length qs))%Z ->
  (List.length qs <= n)%nat ->
  record_loop cfg np lo limit n (arriving qs rest) frames count
  = (frames ++ qs, rest).
Proof.
  intros H. revert n frames count.
  induction H as [|f qs Hf _ IH]; intros n frames count Hne Hmax Hn;
    [congruence|].
  destruct n as [|n]; [simpl in Hn; lia|]. simpl.
  rewrite Hf, length_app. cbn [List.length] in *.
  destruct qs as [|g qs]; cbn [List.length] in *.
  - replace (lo <=? _)%Z with true by (symmetry; apply Z.leb_le; lia).
    replace (limit <=? count + 1)%Z with true
      by (symmetry; apply Z.leb_le; lia).
    reflexivity.
  - replace ((lo <=? _)%Z && (limit <=? count + 1)%Z) with false.
    + fold (arriving (g :: qs) rest).
      rewrite IH; cbn [List.length]; try lia; try congruence.
      * now rewrite <- app_assoc.
      * rewrite length_app. cbn [List.length]. lia.
    + symmetry. apply andb_false_iff.
      destruct (Z.max_spec (lo - Z.of_nat (List.length frames))
                           (limit - count)) as [[_ E]|[_ E]].
      * right. apply Z.leb_gt. lia.
      * left. apply Z.leb_gt. lia.
Qed.

(** When every arriving frame is below the silence threshold, the recorder
    returns exactly [max(min_frames, silence_limit)] frames, provided that
    is at most [max_frames].  This is also what happens to any input when
    numpy is absent and the threshold is positive, since [_rms] is then 0. *)
Theorem record_all_quiet (cfg : VoiceRuntimeConfig) (np : Numpy)
    (frames : list Frame) (rest : Queue) (most least limit : Z) :
  max_frames cfg = Ok most -> min_frames cfg = Ok least ->
  silence_limit cfg = Ok limit ->
  Z.of_nat (List.length frames) = Z.max least limit ->
  (Z.max least limit <= most)%Z ->
  Forall (fun f => (_rms np f < silence_threshold cfg)%Q) frames ->
  _record_utterance cfg np (arriving frames rest) = Ok (frames, rest)
  /\ (np = None -> (0 < silence_threshold cfg)%Q ->
      forall f, is_quiet cfg np f = true).
Proof.
  intros EM Em EL Hlen Fits Quiet. split.
  - rewrite (record_utterance_unfold cfg np _ most least limit EM Em EL).
    pose proof (at_least_one_chunk_pos _ _ _ EL) as Hlim.
    rewrite (all_quiet_run cfg np least limit frames); try reflexivity.
    + eapply Forall_impl; [|exact Quiet]. intros f. apply is_quiet_true.
    + destruct frames; [simpl in Hlen; lia | discriminate].
    + simpl. lia.
    + lia.
  - intros -> Pos f. now apply is_quiet_true.
Qed.

Lemma record_all_quiet_witness :
  _record_utterance Samples.run_cfg None
    (arriving [Samples.loud; Samples.loud] [Some Samples.loud])
  = Ok ([Samples.loud; Samples.loud], [Some Samples.loud]).
Proof.
  refine (proj1 (record_all_quiet Samples.run_cfg None
                   [Samples.loud; Samples.loud] [Some Samples.loud]
                   10 2 2 _ _ _ _ _ _)); try reflexivity.
  - discriminate.
  - repeat constructor.
Defined.

End QuietFacts.

(** ** Runs on the sample data *)

Module SampleRuns.
Import WakeWord Service AudioClient Lifecycle.
Import GateFacts KeepFacts LifecycleFacts.

Lemma target_keywords_are_keys_witness :
  In "Hey Nano"%string (dict_keys Samples.twin_items)
  /\ dict_get Samples.twin_items "Hey Nano"
     = Some (score_of Samples.twin_items "Hey Nano").
Proof.
  apply (proj1 (target_keywords_are_keys Samples.wake_cfg Samples.twin_items)).
  simpl. now left.
Defined.

Lemma loop_keeps_state_witness :
  config (detector
            {| ring := deque_append (new_deque 3) Samples.loud;
               detector := new_detector Samples.wake_cfg; q := [] |})
  = config (detector (Samples.fresh_loop [Some Samples.loud]))
  /\ maxlen (ring
               {| ring := deque_append (new_deque 3) Samples.loud;
                  detector := new_detector Samples.wake_cfg; q := [] |})
     = maxlen (ring (Samples.fresh_loop [Some Samples.loud])).
Proof.
  apply (proj2 (proj2 (loop_keeps_state Samples.run_cfg Samples.caps [1%Q]
                         (Samples.fresh_loop [Some Samples.loud])
                         Samples.idle))).
  reflexivity.
Defined.



Lemma start_ends_stopped_witness :
  start Samples.run_cfg Samples.wake_cfg Samples.caps MoreSamples.host
        [100%Q] MoreSamples.busy_queue Samples.idle
  = (Ok tt, Samples.idle)
  /\ _running (snd (start Samples.run_cfg Samples.wake_cfg Samples.caps
                      MoreSamples.host [100%Q] MoreSamples.busy_queue
                      MoreSamples.stopped)) = false.
Proof.
  split.
  - apply (proj1 (start_ends_stopped Samples.run_cfg Samples.wake_cfg
                    Samples.caps MoreSamples.host [100%Q]
                    MoreSamples.busy_queue Samples.idle)).
    reflexivity.
  - apply (proj2 (start_ends_stopped Samples.run_cfg Samples.wake_cfg
                    Samples.caps MoreSamples.host [100%Q]
                    MoreSamples.busy_queue MoreSamples.stopped)).
    reflexivity.
Defined.

(** A whole run on the sample machine: the service starts, the first frame
    triggers, four frames are recorded, the reply is synthesized, playback
    is cancelled, and the service is left stopped with the flag clear. *)
Example sample_run :
  start Samples.run_cfg Samples.wake_cfg Samples.caps MoreSamples.host
        [100%Q] MoreSamples.busy_queue MoreSamples.stopped
  = (Raise (BaseException "cancelled"),
     {| _running := false; _speaking := false;
        trace := [Log "Voice assistant started";
                  Log "Listening for wake word...";
                  Transcribe Samples.wav;
                  Log "Transcribed: what time is it";
                  AskAgent "what time is it";
                  SetSpeaking true; Speak "noon" response_wav;
                  Play response_wav; SetSpeaking false;
                  Log "Voice assistant stopped"] |}).
Proof. reflexivity. Qed.

End SampleRuns.
